(** * Stroke prediction form: validation, prediction gateway and form controller

    A shallow embedding of [types.ts], [services/predictionService.ts] and the
    state-handling part of [App.tsx].

    - JavaScript values are an inductive type; a number is an IEEE 754 binary64
      (Rocq's primitive [float]), compared with the primitive comparisons.
    - The objects the program spreads and updates by key ([formData],
      [validationErrors]) are finite maps from field names to values.
    - React state is one record; each [setX] is a function on it, and a handler
      is a function from the state it runs in to the state it leaves.
    - An [async] function is the code up to its [await], the awaited call, and
      the continuation that runs when the call settles. *)

From Stdlib Require Import ZArith String Ascii Bool List Floats Uint63 Lia.
From stdpp Require Import gmap strings.

Local Open Scope string_scope.

(** ** JavaScript values *)
Module JS.

#[warnings="-register-all"]
Inductive Value : Type :=
| Undefined
| Null
| Bool (b : bool)
| Number (x : float)
| Str (s : string)
| Array (items : list Value)
| Object (props : list (string * Value)).

(** [typeof v] *)
Definition typeof (v : Value) : string :=
  match v with
  | Undefined => "undefined"
  | Null => "object"
  | Bool _ => "boolean"
  | Number _ => "number"
  | Str _ => "string"
  | Array _ => "object"
  | Object _ => "object"
  end.

(** [a === b]. Numbers compare as IEEE values (NaN differs from itself, the
    two zeros are equal). Two object operands are equal only when they are the
    same reference; the embedding has no references and the program compares
    against literals of primitive type only, so object operands give [false]. *)
Definition strict_eq (a b : Value) : bool :=
  match a, b with
  | Undefined, Undefined => true
  | Null, Null => true
  | Bool x, Bool y => Bool.eqb x y
  | Number x, Number y => PrimFloat.eqb x y
  | Str x, Str y => String.eqb x y
  | _, _ => false
  end.

(** [a < b] and [a > b]. The program applies them only under a guard that has
    established [typeof a = number], with a numeric literal on the right;
    operands of other types, which JavaScript would first coerce, are outside
    the modelled fragment and compare [false]. *)
Definition lessThan (a b : Value) : bool :=
  match a, b with
  | Number x, Number y => PrimFloat.ltb x y
  | _, _ => false
  end.

Definition greaterThan (a b : Value) : bool := lessThan b a.

(** ToBoolean, the test of [if (v)] and [v && ...]. *)
Definition truthy (v : Value) : bool :=
  match v with
  | Undefined | Null => false
  | Bool b => b
  | Number x => negb (PrimFloat.eqb x 0%float || PrimFloat.is_nan x)
  | Str s => negb (String.eqb s "")
  | Array _ | Object _ => true
  end.

(** What a [throw] carries in this program: an Error object, with the name of
    its constructor and its message. *)
Record Error : Type := mkError { name : string; message : string }.

(** How a promise settles. *)
Inductive Settled (A : Type) : Type :=
| Fulfilled (a : A)
| Rejected (e : Error).
Arguments Fulfilled {A} a.
Arguments Rejected {A} e.

End JS.

Import JS.

(** ** types.ts *)
Module Types.

Inductive Gender := Male | Female | Other.
Inductive WorkType := Private | SelfEmployed | GovtJob | Children | NeverWorked.
Inductive ResidenceType := Urban | Rural.
Inductive SmokingStatus := NeverSmoked | FormerlySmoked | Smokes | Unknown.

(** The string each enum member stands for at run time. *)
Definition Gender_value (g : Gender) : Value :=
  Str match g with Male => "Male" | Female => "Female" | Other => "Other" end.

Definition WorkType_value (w : WorkType) : Value :=
  Str match w with
      | Private => "Private"
      | SelfEmployed => "Self-employed"
      | GovtJob => "Govt_job"
      | Children => "children"
      | NeverWorked => "Never_worked"
      end.

Definition ResidenceType_value (r : ResidenceType) : Value :=
  Str match r with Urban => "Urban" | Rural => "Rural" end.

Definition SmokingStatus_value (s : SmokingStatus) : Value :=
  Str match s with
      | NeverSmoked => "never smoked"
      | FormerlySmoked => "formerly smoked"
      | Smokes => "smokes"
      | Unknown => "Unknown"
      end.

(** [keyof PatientData] *)
Inductive Field :=
| gender | age | hypertension | heartDisease | everMarried
| workType | residenceType | avgGlucoseLevel | bmi | smokingStatus.

#[export] Instance Field_eq_dec : EqDecision Field.
Proof. solve_decision. Defined.

Definition Field_index (f : Field) : nat :=
  match f with
  | gender => 0 | age => 1 | hypertension => 2 | heartDisease => 3
  | everMarried => 4 | workType => 5 | residenceType => 6
  | avgGlucoseLevel => 7 | bmi => 8 | smokingStatus => 9
  end.

Definition Field_of_index (n : nat) : option Field :=
  match n with
  | 0 => Some gender | 1 => Some age | 2 => Some hypertension
  | 3 => Some heartDisease | 4 => Some everMarried | 5 => Some workType
  | 6 => Some residenceType | 7 => Some avgGlucoseLevel | 8 => Some bmi
  | 9 => Some smokingStatus | _ => None
  end.

#[export] Instance Field_countable : Countable Field.
Proof.
  apply (inj_countable Field_index Field_of_index).
  intros []; reflexivity.
Defined.

(** A [PatientData] at run time: an object keyed by the field names. A
    [Partial<Record<keyof PatientData, string>>] has the same keys. *)
Abbreviation Obj := (gmap Field Value).

(** Property access [o.k] / [o[k]]: an absent key reads as [undefined]. *)
Definition get (o : Obj) (k : Field) : Value := default Undefined (o !! k).

(** The static type [PatientData]: what the type checker promises about the
    fields (every key present, each value of its declared type). *)
Record PatientData (o : Obj) : Prop := {
  pd_gender : exists g, o !! gender = Some (Gender_value g);
  pd_age : o !! age = Some (Str "") \/ exists x, o !! age = Some (Number x);
  pd_hypertension : exists b, o !! hypertension = Some (Bool b);
  pd_heartDisease : exists b, o !! heartDisease = Some (Bool b);
  pd_everMarried : exists b, o !! everMarried = Some (Bool b);
  pd_workType : exists w, o !! workType = Some (WorkType_value w);
  pd_residenceType : exists r, o !! residenceType = Some (ResidenceType_value r);
  pd_avgGlucoseLevel :
    o !! avgGlucoseLevel = Some (Str "") \/ exists x, o !! avgGlucoseLevel = Some (Number x);
  pd_bmi : o !! bmi = Some (Str "") \/ exists x, o !! bmi = Some (Number x);
  pd_smokingStatus : exists s, o !! smokingStatus = Some (SmokingStatus_value s)
}.

End Types.

Import Types.

(** ** JSON.parse

    The platform function the gateway calls on the reply text: the JSON
    grammar (ECMA-404) by recursive descent. A text is a string of bytes
    (UTF-8); a [\u] escape is written out as the UTF-8 bytes of its code
    unit. A number is converted to the nearest binary64. *)
Module JSON.

Definition dquote : ascii := "034"%char.
Definition backslash : ascii := "092"%char.

Definition is_ws (c : ascii) : bool :=
  (c =? " ")%char || (c =? "009")%char || (c =? "010")%char || (c =? "013")%char.

Fixpoint skip_ws (s : string) : string :=
  match s with
  | String c r => if is_ws c then skip_ws r else s
  | EmptyString => s
  end.

Definition is_digit (c : ascii) : bool :=
  Nat.leb 48 (nat_of_ascii c) && Nat.leb (nat_of_ascii c) 57.

Definition digit_val (c : ascii) : Z := Z.of_nat (nat_of_ascii c) - 48.

(** A run of digits: the number read so far, how many digits, the rest. *)
Fixpoint read_digits (s : string) (acc count : Z) : Z * Z * string :=
  match s with
  | String c r =>
      if is_digit c then read_digits r (10 * acc + digit_val c) (count + 1)
      else (acc, count, s)
  | EmptyString => (acc, count, s)
  end.

(** [m * 10 ^ e10], rounded to the nearest binary64 (ties to even). *)
Definition decimal_to_float (neg : bool) (m e10 : Z) : float :=
  if (m =? 0)%Z then (if neg then (-0)%float else 0%float)
  else if (0 <=? e10)%Z
  then SF2Prim (binary_normalize prec emax ((if neg then - m else m) * 10 ^ e10) 0 neg)
  else SF2Prim (SFdiv prec emax
                  (S754_finite neg (Z.to_pos m) 0)
                  (S754_finite false (Z.to_pos (10 ^ (- e10))) 0)).

Definition parse_exponent (s : string) : option (Z * string) :=
  match s with
  | String c r =>
      if (c =? "e")%char || (c =? "E")%char then
        let '(neg, r) :=
          match r with
          | String c' r' =>
              if (c' =? "-")%char then (true, r')
              else if (c' =? "+")%char then (false, r')
              else (false, r)
          | EmptyString => (false, r)
          end in
        let '(e, count, rest) := read_digits r 0 0 in
        if (count =? 0)%Z then None else Some (if neg then (- e)%Z else e, rest)
      else Some (0%Z, s)
  | EmptyString => Some (0%Z, s)
  end.

Definition parse_fraction (s : string) (m : Z) : option (Z * Z * string) :=
  match s with
  | String c r =>
      if (c =? ".")%char then
        let '(m', count, rest) := read_digits r m 0 in
        if (count =? 0)%Z then None else Some (m', count, rest)
      else Some (m, 0%Z, s)
  | EmptyString => Some (m, 0%Z, s)
  end.

(** An optional minus sign; an integer part, either a single zero or a
    run of digits that does not start with zero; an optional fraction (a dot and
    at least one digit); an optional exponent (e or E, an optional sign and at
    least one digit). *)
Definition parse_number (s : string) : option (float * string) :=
  let '(neg, s) :=
    match s with
    | String c r => if (c =? "-")%char then (true, r) else (false, s)
    | EmptyString => (false, s)
    end in
  match s with
  | String c r =>
      if is_digit c then
        let '(m, _, rest) :=
          if (c =? "0")%char then (0%Z, 1%Z, r) else read_digits s 0 0 in
        match parse_fraction rest m with
        | Some (m, fraction_digits, rest) =>
            match parse_exponent rest with
            | Some (e, rest) =>
                Some (decimal_to_float neg m (e - fraction_digits), rest)
            | None => None
            end
        | None => None
        end
      else None
  | EmptyString => None
  end.

Definition hex_val (c : ascii) : option nat :=
  let n := nat_of_ascii c in
  if Nat.leb 48 n && Nat.leb n 57 then Some (n - 48)
  else if Nat.leb 65 n && Nat.leb n 70 then Some (n - 55)
  else if Nat.leb 97 n && Nat.leb n 102 then Some (n - 87)
  else None.

(** The UTF-8 bytes of a code unit below 0x10000. *)
Definition utf8 (n : nat) (tail : string) : string :=
  if Nat.ltb n 128 then String (ascii_of_nat n) tail
  else if Nat.ltb n 2048 then
    String (ascii_of_nat (192 + n / 64))
      (String (ascii_of_nat (128 + n mod 64)) tail)
  else
    String (ascii_of_nat (224 + n / 4096))
      (String (ascii_of_nat (128 + (n / 64) mod 64))
         (String (ascii_of_nat (128 + n mod 64)) tail)).

Definition simple_escape (c : ascii) : option ascii :=
  if (c =? dquote)%char then Some dquote
  else if (c =? backslash)%char then Some backslash
  else if (c =? "/")%char then Some "/"%char
  else if (c =? "b")%char then Some "008"%char
  else if (c =? "f")%char then Some "012"%char
  else if (c =? "n")%char then Some "010"%char
  else if (c =? "r")%char then Some "013"%char
  else if (c =? "t")%char then Some "009"%char
  else None.

(** The characters of a string literal after its opening quote, up to and
    including the closing quote. *)
Fixpoint parse_chars (s : string) : option (string * string) :=
  match s with
  | EmptyString => None
  | String c r =>
      if (c =? dquote)%char then Some (EmptyString, r)
      else if (c =? backslash)%char then
        match r with
        | String e r1 =>
            match simple_escape e with
            | Some c' =>
                match parse_chars r1 with
                | Some (str, rest) => Some (String c' str, rest)
                | None => None
                end
            | None =>
                if (e =? "u")%char then
                  match r1 with
                  | String h1 (String h2 (String h3 (String h4 r2))) =>
                      match hex_val h1, hex_val h2, hex_val h3, hex_val h4 with
                      | Some a, Some b, Some c, Some d =>
                          match parse_chars r2 with
                          | Some (str, rest) =>
                              Some (utf8 (((a * 16 + b) * 16 + c) * 16 + d) str, rest)
                          | None => None
                          end
                      | _, _, _, _ => None
                      end
                  | _ => None
                  end
                else None
            end
        | EmptyString => None
        end
      else if Nat.ltb (nat_of_ascii c) 32 then None
      else
        match parse_chars r with
        | Some (str, rest) => Some (String c str, rest)
        | None => None
        end
  end.

Fixpoint strip_prefix (p s : string) : option string :=
  match p, s with
  | EmptyString, _ => Some s
  | String a p', String b s' => if (a =? b)%char then strip_prefix p' s' else None
  | String _ _, EmptyString => None
  end.

(** Defining a property of an object under construction: a repeated key
    keeps its place and takes the later value. *)
Fixpoint obj_set (props : list (string * Value)) (k : string) (v : Value)
    : list (string * Value) :=
  match props with
  | [] => [(k, v)]
  | (k', v') :: rest =>
      if String.eqb k' k then (k', v) :: rest else (k', v') :: obj_set rest k v
  end.

Fixpoint obj_get (props : list (string * Value)) (k : string) : option Value :=
  match props with
  | [] => None
  | (k', v) :: rest => if String.eqb k' k then Some v else obj_get rest k
  end.

Inductive Parsed : Type :=
| Ok (v : Value) (rest : string)
| Bad
| Starved.

Fixpoint parse_value (fuel : nat) (s : string) : Parsed :=
  match fuel with
  | O => Starved
  | S fuel =>
      match skip_ws s with
      | EmptyString => Bad
      | String c r =>
          if (c =? "{")%char then
            match skip_ws r with
            | String c' r' =>
                if (c' =? "}")%char then Ok (Object []) r'
                else parse_members fuel r []
            | EmptyString => Bad
            end
          else if (c =? "[")%char then
            match skip_ws r with
            | String c' r' =>
                if (c' =? "]")%char then Ok (Array []) r'
                else parse_elements fuel r []
            | EmptyString => Bad
            end
          else if (c =? dquote)%char then
            match parse_chars r with
            | Some (str, rest) => Ok (Str str) rest
            | None => Bad
            end
          else if (c =? "t")%char then
            match strip_prefix "rue" r with
            | Some rest => Ok (Bool true) rest
            | None => Bad
            end
          else if (c =? "f")%char then
            match strip_prefix "alse" r with
            | Some rest => Ok (Bool false) rest
            | None => Bad
            end
          else if (c =? "n")%char then
            match strip_prefix "ull" r with
            | Some rest => Ok Null rest
            | None => Bad
            end
          else
            match parse_number (String c r) with
            | Some (x, rest) => Ok (Number x) rest
            | None => Bad
            end
      end
  end
with parse_elements (fuel : nat) (s : string) (acc : list Value) : Parsed :=
  match fuel with
  | O => Starved
  | S fuel =>
      match parse_value fuel s with
      | Ok v rest =>
          match skip_ws rest with
          | String c r =>
              if (c =? ",")%char then parse_elements fuel r (acc ++ [v])
              else if (c =? "]")%char then Ok (Array (acc ++ [v])) r
              else Bad
          | EmptyString => Bad
          end
      | Bad => Bad
      | Starved => Starved
      end
  end
with parse_members (fuel : nat) (s : string) (acc : list (string * Value)) : Parsed :=
  match fuel with
  | O => Starved
  | S fuel =>
      match skip_ws s with
      | String c r =>
          if (c =? dquote)%char then
            match parse_chars r with
            | Some (key, rest) =>
                match skip_ws rest with
                | String c1 r1 =>
                    if (c1 =? ":")%char then
                      match parse_value fuel r1 with
                      | Ok v rest =>
                          match skip_ws rest with
                          | String c2 r2 =>
                              if (c2 =? ",")%char
                              then parse_members fuel r2 (obj_set acc key v)
                              else if (c2 =? "}")%char
                              then Ok (Object (obj_set acc key v)) r2
                              else Bad
                          | EmptyString => Bad
                          end
                      | Bad => Bad
                      | Starved => Starved
                      end
                    else Bad
                | EmptyString => Bad
                end
            | None => Bad
            end
          else Bad
      | EmptyString => Bad
      end
  end.

(** The error [JSON.parse] throws. Its name is fixed by the language; the
    message is the engine's own and nothing in the program reads it. *)
Definition SyntaxError : Error := mkError "SyntaxError" "Unexpected token in JSON".

(** [JSON.parse(text)]: one value, then only white space. The recursion is
    given two steps per character and one more, which always suffices
    ([parse_value_fed] below). *)
Definition parse (text : string) : Value + Error :=
  match parse_value (2 * String.length text + 1) text with
  | Ok v rest =>
      match skip_ws rest with
      | EmptyString => inl v
      | String _ _ => inr SyntaxError
      end
  | Bad => inr SyntaxError
  | Starved => inr SyntaxError
  end.

End JSON.

(** ** services/predictionService.ts *)
Module PredictionService.

(** The schema vocabulary the request uses ([Type.OBJECT], [Type.BOOLEAN],
    [Type.NUMBER], [Type.STRING] with an [enum]). *)
#[warnings="-register-all"]
Inductive Schema : Type :=
| BOOLEAN
| NUMBER
| STRING (enum : list string)
| OBJECT (properties : list (string * Schema)) (required : list string).

Record Config : Type := {
  responseMimeType : string;
  responseSchema : Schema
}.

Record GenerateContentParameters : Type := {
  model : string;
  contents : string;
  config : Config
}.

(** What the program reads of the reply: the [text] getter, a string or
    [undefined]. *)
Record GenerateContentResponse : Type := { text : option string }.

Definition quoted (s : string) : string :=
  String JSON.dquote (s ++ String JSON.dquote "").

Definition newline : string := String "010"%char "".

Definition schema : Schema :=
  OBJECT
    [ ("strokePrediction", BOOLEAN);
      ("probability", NUMBER);
      ("riskLevel", STRING ["Low Risk"; "Moderate Risk"; "High Risk"]) ]
    ["strokePrediction"; "probability"; "riskLevel"].

(** When a value has the shape a schema declares. *)
Fixpoint conforms (sch : Schema) (v : Value) : bool :=
  match sch, v with
  | BOOLEAN, Bool _ => true
  | NUMBER, Number _ => true
  | STRING enum, Str s =>
      match enum with
      | [] => true
      | _ :: _ => existsb (String.eqb s) enum
      end
  | OBJECT properties required, Object props =>
      forallb (fun k => match JSON.obj_get props k with Some _ => true | None => false end)
              required
      && (fix each (ps : list (string * Schema)) : bool :=
            match ps with
            | [] => true
            | (k, sub) :: ps' =>
                match JSON.obj_get props k with
                | Some pv => conforms sub pv
                | None => true
                end && each ps'
            end) properties
  | _, _ => false
  end.

Section Gateway.

(** The two platform services the function calls besides [JSON.parse]:
    [JSON.stringify] on the patient record, and the remote
    [ai.models.generateContent], given by how its promise settles for a
    request. *)
Variable JSON_stringify : Obj -> string.
Variable generateContent : GenerateContentParameters -> Settled GenerateContentResponse.

Definition prompt (data : Obj) : string :=
  newline
  ++ "    Analyze the following patient data for stroke risk assessment. " ++ newline
  ++ "    Based on general medical knowledge and patterns similar to the stroke prediction dataset, predict the likelihood of a stroke." ++ newline
  ++ "    " ++ newline
  ++ "    Patient Data:" ++ newline
  ++ "    " ++ JSON_stringify data ++ newline
  ++ "    " ++ newline
  ++ "    Provide the output strictly in JSON format matching the schema." ++ newline
  ++ "    - strokePrediction: true if high risk/likely stroke, false otherwise." ++ newline
  ++ "    - probability: A number between 0 and 100 representing the percentage chance." ++ newline
  ++ "    - riskLevel: One of " ++ quoted "Low Risk" ++ ", " ++ quoted "Moderate Risk"
  ++ ", " ++ quoted "High Risk" ++ "." ++ newline
  ++ "  ".

Definition request (data : Obj) : GenerateContentParameters := {|
  model := "gemini-2.5-flash";
  contents := prompt data;
  config := {| responseMimeType := "application/json"; responseSchema := schema |}
|}.

(** The body of the [try] block: how it completes, normally with the value
    of the [return] or abruptly with what was thrown. [if (response.text)]
    is the truthiness test of a string or [undefined]; [undefined] is falsy. *)
Definition try_block (data : Obj) : Settled Value :=
  match generateContent (request data) with
  | Rejected e => Rejected e
  | Fulfilled response =>
      match text response with
      | Some t =>
          if truthy (Str t) then
            match JSON.parse t with
            | inl v => Fulfilled v
            | inr e => Rejected e
            end
          else Rejected (mkError "Error" "No response from AI model")
      | None => Rejected (mkError "Error" "No response from AI model")
      end
  end.

(** [predictStrokeRisk(data)]: what [console.error] was called with, and how
    the returned promise settles. *)
Definition predictStrokeRisk (data : Obj) : list (string * Error) * Settled Value :=
  match try_block data with
  | Fulfilled v => ([], Fulfilled v)
  | Rejected error => ([("Prediction error:", error)], Rejected error)
  end.

End Gateway.

End PredictionService.

(** ** App.tsx: component state and handlers *)
Module App.

(** The five [useState] cells of the component. [result] is the
    [PredictionResult | null] cell and holds whatever value the gateway
    returned; [error] is the [string | null] cell. *)
Record State : Type := mkState {
  formData : Obj;
  result : Value;
  loading : bool;
  error : option string;
  validationErrors : Obj
}.

Definition setFormData (f : Obj -> Obj) (s : State) : State :=
  mkState (f (formData s)) (result s) (loading s) (error s) (validationErrors s).

Definition setResult (v : Value) (s : State) : State :=
  mkState (formData s) v (loading s) (error s) (validationErrors s).

Definition setLoading (b : bool) (s : State) : State :=
  mkState (formData s) (result s) b (error s) (validationErrors s).

Definition setError (e : option string) (s : State) : State :=
  mkState (formData s) (result s) (loading s) e (validationErrors s).

Definition setValidationErrors (f : Obj -> Obj) (s : State) : State :=
  mkState (formData s) (result s) (loading s) (error s) (f (validationErrors s)).

(** The arguments of the [useState] calls. *)
Definition initial : State := {|
  formData :=
    <[gender := Gender_value Male]>
    (<[age := Str ""]>
    (<[hypertension := Bool false]>
    (<[heartDisease := Bool false]>
    (<[everMarried := Bool true]>
    (<[workType := WorkType_value Private]>
    (<[residenceType := ResidenceType_value Urban]>
    (<[avgGlucoseLevel := Str ""]>
    (<[bmi := Str ""]>
    (<[smokingStatus := SmokingStatus_value NeverSmoked]> ∅)))))))));
  result := Null;
  loading := false;
  error := None;
  validationErrors := ∅
|}.

(** [handleInputChange(field, value)]: the spread-and-override of the form
    data, and, when the field shows an error, the override of its entry in the
    error map with [undefined]. *)
Definition handleInputChange (field : Field) (value : Value) (s : State) : State :=
  let s1 := setFormData (fun prev => <[field := value]> prev) s in
  if truthy (get (validationErrors s) field)
  then setValidationErrors (fun prev => <[field := Undefined]> prev) s1
  else s1.

(** The body of [validateInputs] up to [setValidationErrors(errors)], on the
    [formData] it reads: the locals [errors] and [isValid] after the three
    rules. *)
Definition validateInputs_locals (formData : Obj) : Obj * bool :=
  let errors : Obj := ∅ in
  let isValid := true in
  (* Age Validation: 0 to 120 *)
  let '(errors, isValid) :=
    if strict_eq (get formData age) (Str "")
       || negb (String.eqb (typeof (get formData age)) "number")
    then (<[age := Str "Age is required."]> errors, false)
    else if lessThan (get formData age) (Number 0)
            || greaterThan (get formData age) (Number 120)
    then (<[age := Str "Please enter a valid age (0-120)."]> errors, false)
    else (errors, isValid) in
  (* Glucose Validation: 30 to 600 mg/dL *)
  let '(errors, isValid) :=
    if strict_eq (get formData avgGlucoseLevel) (Str "")
       || negb (String.eqb (typeof (get formData avgGlucoseLevel)) "number")
    then (<[avgGlucoseLevel := Str "Glucose level is required."]> errors, false)
    else if lessThan (get formData avgGlucoseLevel) (Number 30)
            || greaterThan (get formData avgGlucoseLevel) (Number 600)
    then (<[avgGlucoseLevel := Str "Value must be between 30 and 600 mg/dL."]> errors, false)
    else (errors, isValid) in
  (* BMI Validation: 10 to 100 *)
  let '(errors, isValid) :=
    if strict_eq (get formData bmi) (Str "")
       || negb (String.eqb (typeof (get formData bmi)) "number")
    then (<[bmi := Str "BMI is required."]> errors, false)
    else if lessThan (get formData bmi) (Number 10)
            || greaterThan (get formData bmi) (Number 100)
    then (<[bmi := Str "Value must be between 10 and 100."]> errors, false)
    else (errors, isValid) in
  (errors, isValid).

(** [validateInputs()]: reads [formData], stores the error map in the
    [validationErrors] cell and returns [isValid]. *)
Definition validateInputs (s : State) : bool * State :=
  let '(errors, isValid) := validateInputs_locals (formData s) in
  (isValid, setValidationErrors (fun _ => errors) s).

(** The error map a call of the validator produces for a form. *)
Definition errorMap (fd : Obj) : Obj := fst (validateInputs_locals fd).

(** An async handler: it either returns before any [await], or stops at
    [await predictStrokeRisk(data)] with the rest of its body as the
    continuation [k], run in the state current when the call settles. *)
Inductive Task : Type :=
| Done (s : State)
| Await (s : State) (data : Obj) (k : Settled Value -> State -> State).

(** [handleSubmit()] *)
Definition handleSubmit (s0 : State) : Task :=
  let s := setError None s0 in
  let s := setResult Null s in
  let '(valid, s) := validateInputs s in
  if negb valid
  then Done (setError (Some "Please correct the errors in the highlighted fields.") s)
  else
    let s := setLoading true s in
    Await s (formData s0)
      (fun outcome s =>
         let s :=
           match outcome with
           | Fulfilled prediction => setResult prediction s
           | Rejected _ => setError (Some "Failed to generate prediction. Please try again.") s
           end in
         setLoading false s).

(** The submit button: [disabled={loading}]. *)
Definition submit_disabled (s : State) : bool := loading s.

(** *** The page as an event system

    Between two events the page is the component state, the calls of
    [predictStrokeRisk] that were issued and have not settled (each with the
    record it was given and the continuation of the handler that awaits it),
    and the console. *)
Record Page : Type := mkPage {
  ui : State;
  pending : list (Obj * (Settled Value -> State -> State));
  console : list (string * Error)
}.

Inductive Event : Type :=
| Change (field : Field) (value : Value)
| Click
| Settle (i : nat) (reply : Settled PredictionService.GenerateContentResponse).

Section Events.

Variable JSON_stringify : Obj -> string.

(** One event.
    - [Change]: a form control calls [handleInputChange].
    - [Click]: a click on the submit button; a disabled button fires no
      [onClick], otherwise [handleSubmit] runs up to its [await].
    - [Settle i reply]: the remote call behind the [i]-th pending request
      settles with [reply]; [predictStrokeRisk] finishes and the awaiting
      handler resumes. *)
Definition dispatch (e : Event) (p : Page) : Page :=
  match e with
  | Change field value =>
      mkPage (handleInputChange field value (ui p)) (pending p) (console p)
  | Click =>
      if submit_disabled (ui p) then p
      else
        match handleSubmit (ui p) with
        | Done s => mkPage s (pending p) (console p)
        | Await s data k => mkPage s (pending p ++ [(data, k)]) (console p)
        end
  | Settle i reply =>
      match pending p !! i with
      | None => p
      | Some (data, k) =>
          let '(logged, outcome) :=
            PredictionService.predictStrokeRisk JSON_stringify (fun _ => reply) data in
          mkPage (k outcome (ui p)) (delete i (pending p)) (console p ++ logged)
      end
  end.

Definition run (events : list Event) (p : Page) : Page :=
  fold_left (fun p e => dispatch e p) events p.

Definition start : Page := mkPage initial [] [].

End Events.

End App.

(** ** The vocabulary of the specification *)
Module Spec.

Import App PredictionService.

(** *** The validator *)

(** The three ways a required numeric field can fail. *)
Definition unset (v : Value) : Prop := v = Str "".

Definition non_numeric (v : Value) : Prop := typeof v <> "number".

Definition outside (lo hi : float) (v : Value) : Prop :=
  exists x, v = Number x /\ ~ (PrimFloat.leb lo x = true /\ PrimFloat.leb x hi = true).

Definition invalid (lo hi : float) (v : Value) : Prop :=
  unset v \/ non_numeric v \/ outside lo hi v.

(** The error map reports a field when it has an entry for it. *)
Definition reports (errors : Obj) (f : Field) : Prop := is_Some (errors !! f).

(** The statement on the three validated fields, for one form. *)
Definition flags_exactly_the_invalid (fd : Obj) : Prop :=
  (reports (errorMap fd) age <-> invalid 0 120 (get fd age))
  /\ (reports (errorMap fd) avgGlucoseLevel <-> invalid 30 600 (get fd avgGlucoseLevel))
  /\ (reports (errorMap fd) bmi <-> invalid 10 100 (get fd bmi)).

Definition is_NaN (v : Value) : bool :=
  match v with
  | Number x => PrimFloat.is_nan x
  | _ => false
  end.

(** A form with the three measurements filled in. *)
Definition filled (a g b : Value) (fd : Obj) : Obj :=
  <[age := a]> (<[avgGlucoseLevel := g]> (<[bmi := b]> fd)).

#[warnings="-inexact-float"]
Definition scenario_A : Obj :=
  filled (Number 45) (Number 105.5) (Number 28.4) (formData initial).

Definition with_NaN_age : Obj :=
  filled (Number PrimFloat.nan) (Number 105.5) (Number 50) (formData initial).

(** One rule of the validator, as a function of the locals: the shape the
    three blocks of [validateInputs] share. *)
Definition check_field (fd : Obj) (field : Field) (lo hi : float)
    (required out_of_range : string) (locals : Obj * bool) : Obj * bool :=
  let '(errors, isValid) := locals in
  if strict_eq (get fd field) (Str "")
     || negb (String.eqb (typeof (get fd field)) "number")
  then (<[field := Str required]> errors, false)
  else if lessThan (get fd field) (Number lo) || greaterThan (get fd field) (Number hi)
  then (<[field := Str out_of_range]> errors, false)
  else (errors, isValid).

(** The entry the rule of a field writes, from the value of that field alone. *)
Definition rule (f : Field) (v : Value) : option Value :=
  match f with
  | age =>
      fst (check_field {[age := v]} age 0 120
             "Age is required." "Please enter a valid age (0-120)." (∅, true)) !! age
  | avgGlucoseLevel =>
      fst (check_field {[avgGlucoseLevel := v]} avgGlucoseLevel 30 600
             "Glucose level is required." "Value must be between 30 and 600 mg/dL."
             (∅, true)) !! avgGlucoseLevel
  | bmi =>
      fst (check_field {[bmi := v]} bmi 10 100
             "BMI is required." "Value must be between 10 and 100." (∅, true)) !! bmi
  | _ => None
  end.

(** *** The gateway *)

(** The reply text of the specification, with a probability of choice. *)
Definition reply_text (probability : string) : string :=
  "{" ++ quoted "strokePrediction" ++ ":true,"
  ++ quoted "probability" ++ ":" ++ probability ++ ","
  ++ quoted "riskLevel" ++ ":" ++ quoted "High Risk" ++ "}".

Definition reply_value (probability : float) : Value :=
  Object [ ("strokePrediction", Bool true);
           ("probability", Number probability);
           ("riskLevel", Str "High Risk") ].

(** A remote service that answers every request with the same text. *)
Definition replies (t : option string)
    : GenerateContentParameters -> Settled GenerateContentResponse :=
  fun _ => Fulfilled {| text := t |}.

Definition no_response : Error := mkError "Error" "No response from AI model".

(** The outcome of the gateway by cases on the remote call, with a reply
    that parses but does not have the declared shape counted as a failure. *)
Definition outcome_with_schema_check (JSON_stringify : Obj -> string)
    (gc : GenerateContentParameters -> Settled GenerateContentResponse)
    (data : Obj) : Prop :=
  let outcome := snd (predictStrokeRisk JSON_stringify gc data) in
  match gc (request JSON_stringify data) with
  | Rejected e => outcome = Rejected e
  | Fulfilled response =>
      match text response with
      | None => outcome = Rejected no_response
      | Some t =>
          if String.eqb t "" then outcome = Rejected no_response
          else
            match JSON.parse t with
            | inr e => outcome = Rejected e
            | inl v =>
                if conforms schema v then outcome = Fulfilled v
                else exists e, outcome = Rejected e
            end
      end
  end.

(** The same without the shape check: whatever parses is returned. *)
Definition outcome_by_cases (JSON_stringify : Obj -> string)
    (gc : GenerateContentParameters -> Settled GenerateContentResponse)
    (data : Obj) : Prop :=
  let outcome := snd (predictStrokeRisk JSON_stringify gc data) in
  match gc (request JSON_stringify data) with
  | Rejected e => outcome = Rejected e
  | Fulfilled response =>
      match text response with
      | None => outcome = Rejected no_response
      | Some t =>
          if String.eqb t "" then outcome = Rejected no_response
          else
            match JSON.parse t with
            | inr e => outcome = Rejected e
            | inl v => outcome = Fulfilled v
            end
      end
  end.

(** *** The controller *)

(** What the handler that awaits a prediction does when it resumes. *)
Definition resumes (k : Settled Value -> State -> State) : Prop :=
  forall outcome s,
    k outcome s =
    setLoading false
      match outcome with
      | Fulfilled prediction => setResult prediction s
      | Rejected _ => setError (Some "Failed to generate prediction. Please try again.") s
      end.

(** The invariant of the page: either no request is pending and the button
    is enabled, or exactly one is pending, the button is disabled and both
    the result and the error message are null. *)
Inductive page_inv (p : Page) : Prop :=
| inv_idle :
    pending p = [] -> loading (ui p) = false ->
    result (ui p) = Null \/ error (ui p) = None ->
    page_inv p
| inv_submitting data k :
    pending p = [(data, k)] -> resumes k -> loading (ui p) = true ->
    result (ui p) = Null -> error (ui p) = None ->
    page_inv p.

(** The parser has fuel to spare on [s] when it does not starve and, on
    success, has consumed at least one character. *)
Definition fed (s : string) (r : JSON.Parsed) : Prop :=
  r <> JSON.Starved
  /\ forall v rest, r = JSON.Ok v rest -> String.length rest < String.length s.

End Spec.

(** ** App.tsx: the form controls and what the component renders *)
Module View.

Import App PredictionService.

(** [getInputClass(field)] *)
Definition getInputClass (field : Field) (s : State) : string :=
  let baseClass :=
    "w-full rounded-lg border p-2.5 text-slate-700 outline-none transition focus:ring-2 focus:ring-teal-500 bg-white" in
  if truthy (get (validationErrors s) field)
  then baseClass ++ " border-red-500 focus:border-red-500 focus:ring-red-200"
  else baseClass ++ " border-slate-300 focus:border-teal-500".

(** The message under a numeric input: [validationErrors.f && <p>...</p>]. *)
Definition fieldMessage (field : Field) (s : State) : option Value :=
  if truthy (get (validationErrors s) field)
  then Some (get (validationErrors s) field)
  else None.

(** [Object.values] of the four enums, in declaration order: the options
    of the four enum selects. *)
Definition Gender_values : list Value :=
  [Gender_value Male; Gender_value Female; Gender_value Other].

Definition WorkType_values : list Value :=
  [WorkType_value Private; WorkType_value SelfEmployed; WorkType_value GovtJob;
   WorkType_value Children; WorkType_value NeverWorked].

Definition ResidenceType_values : list Value :=
  [ResidenceType_value Urban; ResidenceType_value Rural].

Definition SmokingStatus_values : list Value :=
  [SmokingStatus_value NeverSmoked; SmokingStatus_value FormerlySmoked;
   SmokingStatus_value Smokes; SmokingStatus_value Unknown].

(** The ten controls of the form. A select or an input carries the
    [e.target.value] of its change event; the two switches carry nothing. *)
Inductive Control : Type :=
| GenderSelect (value : string)
| AgeInput (value : string)
| WorkTypeSelect (value : string)
| ResidenceTypeSelect (value : string)
| EverMarriedSelect (value : string)
| HypertensionSwitch
| HeartDiseaseSwitch
| GlucoseInput (value : string)
| BmiInput (value : string)
| SmokingStatusSelect (value : string).

(** What the document guarantees about [e.target.value]: a select holds the
    value of one of its options. *)
Definition offered (c : Control) : Prop :=
  match c with
  | GenderSelect v => Str v ∈ Gender_values
  | WorkTypeSelect v => Str v ∈ WorkType_values
  | ResidenceTypeSelect v => Str v ∈ ResidenceType_values
  | SmokingStatusSelect v => Str v ∈ SmokingStatus_values
  | EverMarriedSelect v => v = "Yes" \/ v = "No"
  | _ => True
  end.

(** A page between two events, as the user drives it: a control is used,
    the submit button is pressed, or the reply to a pending request arrives. *)
Inductive UIEvent : Type :=
| Use (c : Control)
| Press
| Arrive (i : nat) (reply : Settled GenerateContentResponse).

(** What is on screen besides the form: the submit button, the error banner
    under it, and the output column. *)
Record Panel : Type := mkPanel {
  headerClass : string;
  headline : string;
  barClass : string;
  riskClass : string
}.

Record Screen : Type := mkScreen {
  submitLabel : string;
  errorBanner : option string;
  placeholder : bool;
  resultPanel : option Panel
}.

(** [v.k] on a value that is not null or undefined: an own property of an
    object, [undefined] for a key it does not have. The three keys the
    component reads are not properties of any primitive wrapper or of arrays. *)
Definition member (v : Value) (k : string) : Value :=
  match v with
  | Object props => default Undefined (JSON.obj_get props k)
  | _ => Undefined
  end.

Section Platform.

(** The conversion to a number of the language ([Number(v)], and the
    coercion of the left operand of [v > 50]). *)
Variable ToNumber : Value -> float.

Variable JSON_stringify : Obj -> string.

(** The argument of a numeric input's [onChange]:
    [e.target.value === '' ? '' : Number(e.target.value)]. *)
Definition numeric (value : string) : Value :=
  if strict_eq (Str value) (Str "") then Str "" else Number (ToNumber (Str value)).

(** The call of [handleInputChange] each control makes, in the state it is
    rendered in. *)
Definition change (c : Control) (s : State) : Field * Value :=
  match c with
  | GenderSelect v => (gender, Str v)
  | AgeInput v => (age, numeric v)
  | WorkTypeSelect v => (workType, Str v)
  | ResidenceTypeSelect v => (residenceType, Str v)
  | EverMarriedSelect v => (everMarried, Bool (strict_eq (Str v) (Str "Yes")))
  | HypertensionSwitch =>
      (hypertension, Bool (negb (truthy (get (formData s) hypertension))))
  | HeartDiseaseSwitch =>
      (heartDisease, Bool (negb (truthy (get (formData s) heartDisease))))
  | GlucoseInput v => (avgGlucoseLevel, numeric v)
  | BmiInput v => (bmi, numeric v)
  | SmokingStatusSelect v => (smokingStatus, Str v)
  end.

Definition react (e : UIEvent) (p : Page) : Page :=
  match e with
  | Use c =>
      let '(field, value) := change c (ui p) in
      dispatch JSON_stringify (Change field value) p
  | Press => dispatch JSON_stringify Click p
  | Arrive i reply => dispatch JSON_stringify (Settle i reply) p
  end.

Definition session (events : list UIEvent) : Page :=
  fold_left (fun p e => react e p) events start.

(** [v > c] for a numeric literal [c]. *)
Definition exceeds (v : Value) (c : float) : bool := PrimFloat.ltb c (ToNumber v).

(** The result card, rendered when [result] is truthy. *)
Definition panel (result : Value) : Panel := {|
  headerClass :=
    if truthy (member result "strokePrediction") then "bg-red-500" else "bg-green-500";
  headline :=
    if truthy (member result "strokePrediction") then "Stroke: YES" else "Stroke: NO";
  barClass :=
    if exceeds (member result "probability") 50 then "bg-red-500"
    else if exceeds (member result "probability") 20 then "bg-yellow-500"
    else "bg-green-500";
  riskClass :=
    if strict_eq (member result "riskLevel") (Str "High Risk") then "text-red-600"
    else if strict_eq (member result "riskLevel") (Str "Moderate Risk") then "text-yellow-600"
    else "text-green-600"
|}.

Definition string_or_null (e : option string) : Value :=
  match e with
  | Some m => Str m
  | None => Null
  end.

(** Whether React accepts a value as a child ([{v}] in JSX): a primitive
    is text or nothing, an array is the list of its items, and a plain object
    is refused with an error, after which nothing of the component is drawn. *)
Fixpoint valid_child (v : Value) : bool :=
  match v with
  | Object _ => false
  | Array items => forallb valid_child items
  | _ => true
  end.

(** Whether the render of a state completes: the card prints
    [result.probability] and [result.riskLevel] as children. *)
Definition render_completes (s : State) : bool :=
  if truthy (result s)
  then valid_child (member (result s) "probability")
       && valid_child (member (result s) "riskLevel")
  else true.

(** The four conditions of the JSX: what is drawn when the render completes.
    A falsy result that is a number also leaves its text in place of the card
    ([{result && ...}]); [Screen] records the card, not that text. *)
Definition render (s : State) : Screen := {|
  submitLabel := if loading s then "Processing..." else "Predict Stroke Risk";
  errorBanner := if truthy (string_or_null (error s)) then error s else None;
  placeholder := negb (truthy (result s)) && negb (loading s);
  resultPanel := if truthy (result s) then Some (panel (result s)) else None
|}.

End Platform.

(** One such conversion, to instantiate statements that are about any:
    [undefined] is NaN, [null], [false] and the empty string are 0, [true] is
    1, a number is itself, a string that is a JSON numeral is that number;
    the other strings and the objects are all sent to NaN. *)
Definition ToNumber_plain (v : Value) : float :=
  match v with
  | Undefined => PrimFloat.nan
  | Null => 0
  | Bool b => if b then 1 else 0
  | Number x => x
  | Str s =>
      if String.eqb s "" then 0
      else
        match JSON.parse_number s with
        | Some (x, EmptyString) => x
        | _ => PrimFloat.nan
        end
  | Array _ | Object _ => PrimFloat.nan
  end.

End View.

(** ** Further vocabulary *)
Module Terms.

Import App PredictionService View.

(** The three rules of the validator as a table: field, bounds, and the
    two messages. *)
Definition rules : list (Field * float * float * string * string) :=
  [ (age, 0%float, 120%float,
     "Age is required.", "Please enter a valid age (0-120).");
    (avgGlucoseLevel, 30%float, 600%float,
     "Glucose level is required.", "Value must be between 30 and 600 mg/dL.");
    (bmi, 10%float, 100%float,
     "BMI is required.", "Value must be between 10 and 100.") ].

(** An input is drawn with the red border. *)
Definition highlighted (field : Field) (s : State) : Prop :=
  getInputClass field s =
  "w-full rounded-lg border p-2.5 text-slate-700 outline-none transition focus:ring-2 focus:ring-teal-500 bg-white border-red-500 focus:border-red-500 focus:ring-red-200".

(** A numeric input holds the empty text or the text of a number. *)
Definition numeral (ToNumber : Value -> float) (c : Control) : Prop :=
  match c with
  | AgeInput v | GlucoseInput v | BmiInput v =>
      v = "" \/ PrimFloat.is_nan (ToNumber (Str v)) = false
  | _ => True
  end.

Definition offered_event (e : UIEvent) : Prop :=
  match e with
  | Use c => offered c
  | _ => True
  end.

Definition numeral_event (ToNumber : Value -> float) (e : UIEvent) : Prop :=
  match e with
  | Use c => numeral ToNumber c
  | _ => True
  end.

(** The type of a field of [PatientData]. *)
Definition has_type (f : Field) (v : Value) : Prop :=
  match f with
  | gender => exists g, v = Gender_value g
  | workType => exists w, v = WorkType_value w
  | residenceType => exists r, v = ResidenceType_value r
  | smokingStatus => exists k, v = SmokingStatus_value k
  | hypertension | heartDisease | everMarried => exists b, v = Bool b
  | age | avgGlucoseLevel | bmi => v = Str "" \/ exists x, v = Number x
  end.

(** Field changes as page events. *)
Definition edits (l : list (Field * Value)) : list Event :=
  map (fun '(f, v) => Change f v) l.

(** A page event that is not the settlement of a request. *)
Definition no_settlement (e : Event) : Prop :=
  match e with
  | Settle _ _ => False
  | _ => True
  end.

(** The card with every colour at its fallback. *)
Definition reassuring : Panel :=
  {| headerClass := "bg-green-500"; headline := "Stroke: NO";
     barClass := "bg-green-500"; riskClass := "text-green-600" |}.

End Terms.

Import App PredictionService Spec.

(** * Properties *)

(** ** The order on binary64 values *)
Section FloatOrder.

Lemma SFcompare_antisym x y :
  SFcompare y x = option_map CompOpp (SFcompare x y).
Proof.
  destruct x as [sx|sx| |sx mx ex], y as [sy|sy| |sy my ey]; simpl; try reflexivity;
    try (destruct sx; reflexivity); try (destruct sy; reflexivity);
    try (destruct sx, sy; reflexivity).
  destruct sx, sy; simpl; try reflexivity;
    rewrite (Z.compare_antisym ey ex); destruct (ey ?= ex)%Z eqn:E; simpl; try reflexivity;
    rewrite (Pos.compare_cont_antisym); simpl; try reflexivity.
  rewrite CompOpp_involutive. reflexivity.
Qed.

Lemma SFcompare_refl x : x <> S754_nan -> SFcompare x x = Some Eq.
Proof.
  destruct x as [s|s| |s m e]; simpl; intros H; try congruence;
    try (destruct s; reflexivity).
  destruct s; rewrite Z.compare_refl, Pos.compare_cont_refl; reflexivity.
Qed.

Lemma SFcompare_ordered x y :
  x <> S754_nan -> y <> S754_nan -> exists c, SFcompare x y = Some c.
Proof. destruct x, y; simpl; intros; try congruence; eauto. Qed.

Lemma is_nan_false x : PrimFloat.is_nan x = false -> Prim2SF x <> S754_nan.
Proof.
  unfold PrimFloat.is_nan. rewrite FloatAxioms.eqb_spec. intros H E.
  rewrite E in H. discriminate.
Qed.

Lemma is_nan_true x : PrimFloat.is_nan x = true -> Prim2SF x = S754_nan.
Proof.
  unfold PrimFloat.is_nan. rewrite FloatAxioms.eqb_spec. unfold SFeqb. intros H.
  destruct (Prim2SF x) eqn:E; try reflexivity;
    rewrite SFcompare_refl in H by discriminate; discriminate.
Qed.

(** Away from NaN the order is total: [x < y] is the negation of [y <= x]. *)
Lemma ltb_negb_leb x y :
  PrimFloat.is_nan x = false -> PrimFloat.is_nan y = false ->
  PrimFloat.ltb x y = negb (PrimFloat.leb y x).
Proof.
  intros Hx Hy. rewrite FloatAxioms.ltb_spec, FloatAxioms.leb_spec. unfold SFltb, SFleb.
  rewrite (SFcompare_antisym (Prim2SF x) (Prim2SF y)).
  destruct (SFcompare_ordered _ _ (is_nan_false _ Hx) (is_nan_false _ Hy)) as [c ->].
  destruct c; reflexivity.
Qed.

(** NaN is below nothing and nothing is below it. *)
Lemma ltb_nan_l x y : PrimFloat.is_nan x = true -> PrimFloat.ltb x y = false.
Proof.
  intros H. rewrite FloatAxioms.ltb_spec, (is_nan_true _ H). reflexivity.
Qed.

Lemma ltb_nan_r x y : PrimFloat.is_nan y = true -> PrimFloat.ltb x y = false.
Proof.
  intros H. rewrite FloatAxioms.ltb_spec, (is_nan_true _ H).
  unfold SFltb. destruct (Prim2SF x); reflexivity.
Qed.

End FloatOrder.

(** ** The parser never runs out of fuel *)
Section Fuel.

Import JSON.

Lemma skip_ws_length s : String.length (skip_ws s) <= String.length s.
Proof. induction s as [|c r IH]; simpl; [lia |]. destruct (is_ws c); simpl; lia. Qed.

Lemma skip_ws_cons s c r : skip_ws s = String c r -> String.length r < String.length s.
Proof. intros E. pose proof (skip_ws_length s) as H. rewrite E in H. simpl in H. lia. Qed.

Lemma read_digits_length s : forall acc count acc' count' rest,
  read_digits s acc count = (acc', count', rest) ->
  String.length rest <= String.length s.
Proof.
  induction s as [|c r IH]; simpl; intros acc count acc' count' rest E.
  - injection E as _ _ <-. simpl. lia.
  - destruct (is_digit c).
    + apply IH in E. lia.
    + injection E as _ _ <-. simpl. lia.
Qed.

Lemma parse_chars_bounded n : forall s str rest,
  String.length s <= n ->
  parse_chars s = Some (str, rest) -> String.length rest < String.length s.
Proof.
  induction n as [|n IH]; intros s str rest Hn E;
    destruct s as [|c r]; simpl in *; try discriminate; try lia.
  repeat case_match; simplify_eq; simpl in *;
    try lia;
    match goal with
    | H : parse_chars ?x = Some (_, ?y) |- _ => apply IH in H; simpl in *; lia
    end.
Qed.

Lemma parse_chars_length s str rest :
  parse_chars s = Some (str, rest) -> String.length rest < String.length s.
Proof. apply (parse_chars_bounded (String.length s)). lia. Qed.

Lemma strip_prefix_length p : forall s rest,
  strip_prefix p s = Some rest -> String.length rest <= String.length s.
Proof.
  induction p as [|a p IH]; simpl; intros s rest E.
  - injection E as <-. lia.
  - destruct s as [|b s]; [discriminate |].
    destruct (a =? b)%char; [| discriminate]. apply IH in E. simpl. lia.
Qed.

Lemma parse_fraction_length s m m' k rest :
  parse_fraction s m = Some (m', k, rest) -> String.length rest <= String.length s.
Proof.
  unfold parse_fraction. intros E.
  repeat case_match; simplify_eq; simpl; try lia.
  match goal with H : read_digits _ _ _ = _ |- _ => apply read_digits_length in H end.
  lia.
Qed.

Lemma parse_exponent_length s e rest :
  parse_exponent s = Some (e, rest) -> String.length rest <= String.length s.
Proof.
  unfold parse_exponent. intros E.
  repeat case_match; simplify_eq; simpl; try lia;
  match goal with H : read_digits _ _ _ = _ |- _ => apply read_digits_length in H end;
  simpl in *; lia.
Qed.

Lemma parse_number_length s x rest :
  parse_number s = Some (x, rest) -> String.length rest < String.length s.
Proof.
  unfold parse_number. intros E.
  repeat case_match; simplify_eq; simpl;
  repeat match goal with
  | H : read_digits (String ?c _) _ _ = _, Hd : is_digit ?c = true |- _ =>
      simpl in H; rewrite Hd in H
  | H : read_digits _ _ _ = _ |- _ => apply read_digits_length in H
  | H : parse_fraction _ _ = _ |- _ => apply parse_fraction_length in H
  | H : parse_exponent _ = _ |- _ => apply parse_exponent_length in H
  end; simpl in *; lia.
Qed.

Ltac stops := split; [discriminate | intros; discriminate].

(** Two steps of fuel per character and one more are enough for a value, and
    one more again for the elements of an array or the members of an object. *)
Lemma parse_fed fuel :
  (forall s, 2 * String.length s + 1 <= fuel -> fed s (parse_value fuel s))
  /\ (forall s acc, 2 * String.length s + 2 <= fuel -> fed s (parse_elements fuel s acc))
  /\ (forall s acc, 2 * String.length s + 2 <= fuel -> fed s (parse_members fuel s acc)).
Proof.
  induction fuel as [|fuel (IHv & IHe & IHm)].
  - repeat split; intros; lia.
  - split; [| split].
    + intros s Hs. cbn [parse_value].
      destruct (skip_ws s) as [|c r] eqn:Hws; [stops |].
      apply skip_ws_cons in Hws.
      repeat case_match; subst;
        try stops;
        try (split; [discriminate | intros ? ? [= <- <-]]);
        repeat match goal with
        | H : skip_ws _ = String _ _ |- _ => apply skip_ws_cons in H
        | H : parse_chars _ = Some _ |- _ => apply parse_chars_length in H
        | H : strip_prefix _ _ = Some _ |- _ => apply strip_prefix_length in H
        | H : parse_number _ = Some _ |- _ => apply parse_number_length in H
        end; cbn [String.length] in *; try lia.
      * destruct (IHm r []) as [? Hl]; [lia |]. split; [done |].
        intros v rest E. apply Hl in E. lia.
      * destruct (IHe r []) as [? Hl]; [lia |]. split; [done |].
        intros v rest E. apply Hl in E. lia.
    + intros s acc Hs. cbn [parse_elements].
      destruct (IHv s) as [Hn Hl]; [lia |].
      destruct (parse_value fuel s) as [v rest| |] eqn:E; [| stops | done].
      specialize (Hl _ _ eq_refl).
      destruct (skip_ws rest) as [|c r] eqn:Hws; [stops |].
      apply skip_ws_cons in Hws.
      repeat case_match; subst;
        try stops;
        try (split; [discriminate | intros ? ? [= <- <-]; lia]).
      destruct (IHe r (acc ++ [v])%list) as [? Hl']; [lia |]. split; [done |].
      intros v' rest' E'. apply Hl' in E'. lia.
    + intros s acc Hs. cbn [parse_members].
      destruct (skip_ws s) as [|c r] eqn:Hws; [stops |].
      apply skip_ws_cons in Hws.
      destruct (c =? dquote)%char; [| stops].
      destruct (parse_chars r) as [[key rest]|] eqn:Hk; [| stops].
      apply parse_chars_length in Hk.
      destruct (skip_ws rest) as [|c1 r1] eqn:Hws1; [stops |].
      apply skip_ws_cons in Hws1.
      destruct (c1 =? ":")%char; [| stops].
      destruct (IHv r1) as [Hn Hl]; [lia |].
      destruct (parse_value fuel r1) as [v rest2| |] eqn:E; [| stops | done].
      specialize (Hl _ _ eq_refl).
      destruct (skip_ws rest2) as [|c2 r2] eqn:Hws2; [stops |].
      apply skip_ws_cons in Hws2.
      repeat case_match; subst;
        try stops;
        try (split; [discriminate | intros ? ? [= <- <-]; lia]).
      destruct (IHm r2 (obj_set acc key v)) as [? Hl']; [lia |]. split; [done |].
      intros v' rest' E'. apply Hl' in E'. lia.
Qed.

Lemma parse_value_fed text :
  parse_value (2 * String.length text + 1) text <> Starved.
Proof. apply (parse_fed (2 * String.length text + 1)). lia. Qed.

(** [JSON.parse] either returns a value or throws the SyntaxError. *)
Lemma parse_error t e : parse t = inr e -> e = SyntaxError.
Proof. unfold parse. repeat case_match; congruence. Qed.

(** The parser on a few texts: numbers are read as the nearest binary64
    (as the literals of the same spelling), an overflow gives infinity, a
    repeated key keeps the later value, and what is not JSON is refused. *)
#[warnings="-inexact-float"]
Example parse_numbers :
  parse " [1, 2.5, -0, 28.4, 105.5, 0.1, 1e400, 5e-324] "
  = inl (Array [Number 1; Number 2.5; Number (-0); Number 28.4; Number 105.5;
                Number 0.1; Number PrimFloat.infinity; Number 5e-324]).
Proof. vm_compute. reflexivity. Qed.

Example parse_repeated_key :
  parse ("{" ++ quoted "a" ++ ": null, " ++ quoted "b" ++ ":[[]], "
         ++ quoted "a" ++ ": {} }")
  = inl (Object [("a", Object []); ("b", Array [Array []])]).
Proof. vm_compute. reflexivity. Qed.

Example parse_refuses :
  Forall (fun t => parse t = inr SyntaxError)
         [""; "not json"; "01"; "[1,]"; "nul"; "-"; "1."; "1e"; "{} x"].
Proof. repeat constructor. Qed.

End Fuel.

(** ** Objects *)

Lemma get_insert_eq (o : Obj) k v : get (<[k := v]> o) k = v.
Proof. unfold get. by rewrite lookup_insert_eq. Qed.

Lemma get_insert_ne (o : Obj) k k' v : k <> k' -> get (<[k := v]> o) k' = get o k'.
Proof. intros. unfold get. by rewrite lookup_insert_ne. Qed.

Lemma get_singleton k v : get ({[k := v]} : Obj) k = v.
Proof. unfold get. by rewrite lookup_singleton_eq. Qed.

(** ** The validator *)

(** The body of [validateInputs] is its three rules in sequence. *)
Lemma validateInputs_locals_rules fd :
  validateInputs_locals fd =
  check_field fd bmi 10 100 "BMI is required." "Value must be between 10 and 100."
    (check_field fd avgGlucoseLevel 30 600
       "Glucose level is required." "Value must be between 30 and 600 mg/dL."
       (check_field fd age 0 120
          "Age is required." "Please enter a valid age (0-120)." (∅, true))).
Proof.
  unfold validateInputs_locals, check_field. repeat case_match; simplify_eq; reflexivity.
Qed.

(** A rule writes at most the entry of its field. *)
Lemma check_field_other fd f f' lo hi r o locals :
  f <> f' ->
  fst (check_field fd f lo hi r o locals) !! f' = fst locals !! f'.
Proof.
  intros Hne. unfold check_field. destruct locals as [errors isValid].
  repeat case_match; simpl; by rewrite ?lookup_insert_ne.
Qed.

(** What a rule leaves at its own field: one of its two messages, or what
    was there. *)
Lemma check_field_same fd f lo hi r o locals :
  fst (check_field fd f lo hi r o locals) !! f =
  if strict_eq (get fd f) (Str "") || negb (String.eqb (typeof (get fd f)) "number")
  then Some (Str r)
  else if lessThan (get fd f) (Number lo) || greaterThan (get fd f) (Number hi)
  then Some (Str o)
  else fst locals !! f.
Proof.
  unfold check_field. destruct locals as [errors isValid].
  repeat case_match; simpl; by rewrite ?lookup_insert_eq.
Qed.

(** The entry of a field in the error map is decided by the value of that
    field and by nothing else. *)
Lemma errorMap_lookup fd f : errorMap fd !! f = rule f (get fd f).
Proof.
  unfold errorMap, rule. rewrite validateInputs_locals_rules.
  destruct f;
    rewrite ?check_field_other by discriminate;
    try reflexivity.
  all: rewrite !check_field_same, ?check_field_other by discriminate.
  all: by rewrite get_singleton.
Qed.

(** Away from NaN, a rule writes an entry exactly for the values that are
    unset, not numbers, or not within the bounds. *)
Lemma check_field_invalid f lo hi r o v :
  PrimFloat.is_nan lo = false -> PrimFloat.is_nan hi = false -> is_NaN v = false ->
  is_Some (fst (check_field {[f := v]} f lo hi r o (∅, true)) !! f) <-> invalid lo hi v.
Proof.
  intros Hlo Hhi Hv. rewrite check_field_same, get_singleton. simpl fst.
  rewrite lookup_empty. unfold invalid, unset, non_numeric, outside.
  destruct v as [| |b|x|s|items|props]; simpl in *; rewrite ?orb_true_r;
    try (split; [intros _; right; left; discriminate | eauto]).
  unfold greaterThan. simpl.
  rewrite (ltb_negb_leb x lo), (ltb_negb_leb hi x) by assumption.
  destruct (PrimFloat.leb lo x) eqn:E1, (PrimFloat.leb x hi) eqn:E2; simpl.
  - split; [intros [? ?]; discriminate |].
    intros [?|[?|(y & Hy & Hn)]]; try congruence.
    exfalso. injection Hy as <-. apply Hn. rewrite E1, E2. auto.
  - split; [intros _ | eauto]. right; right. exists x. split; [reflexivity |].
    rewrite E2. intros [_ ?]; discriminate.
  - split; [intros _ | eauto]. right; right. exists x. split; [reflexivity |].
    rewrite E1. intros [? _]; discriminate.
  - split; [intros _ | eauto]. right; right. exists x. split; [reflexivity |].
    rewrite E1. intros [? _]; discriminate.
Qed.

(** A NaN passes both comparisons of a rule. *)
Lemma check_field_NaN f lo hi r o v :
  is_NaN v = true -> fst (check_field {[f := v]} f lo hi r o (∅, true)) !! f = None.
Proof.
  intros Hv. rewrite check_field_same, get_singleton.
  destruct v; try discriminate. simpl in *. unfold greaterThan. simpl.
  rewrite (ltb_nan_l _ _ Hv), (ltb_nan_r _ _ Hv). reflexivity.
Qed.

Lemma validateInputs_locals_valid fd :
  snd (validateInputs_locals fd) = true <-> errorMap fd = ∅.
Proof.
  unfold errorMap, validateInputs_locals.
  repeat case_match; simplify_eq/=; split; intros Hmap; try done;
    by apply insert_non_empty in Hmap.
Qed.

Lemma validateInputs_eq s :
  validateInputs s =
  (snd (validateInputs_locals (formData s)),
   setValidationErrors (fun _ => errorMap (formData s)) s).
Proof.
  unfold validateInputs, errorMap.
  destruct (validateInputs_locals (formData s)); reflexivity.
Qed.

(** C1 (as amended). For every form, field by field: when the age is not
    NaN, the validator reports age exactly when it is unset, not a number, or
    not within 0..120; when the average glucose level is not NaN, it reports
    it exactly when it is unset, not a number, or not within 30..600; when the
    BMI is not NaN, it reports it exactly when it is unset, not a number, or
    not within 10..100. Each statement holds whatever the other fields hold.
    The form of scenario A (age 45, glucose 105.5, BMI 28.4, the other fields
    at their defaults) has an empty error map and is valid. *)
Theorem validateInputs_flags_invalid_fields :
  (forall fd : Obj,
      (is_NaN (get fd age) = false ->
       (reports (errorMap fd) age <-> invalid 0 120 (get fd age)))
      /\ (is_NaN (get fd avgGlucoseLevel) = false ->
          (reports (errorMap fd) avgGlucoseLevel
           <-> invalid 30 600 (get fd avgGlucoseLevel)))
      /\ (is_NaN (get fd bmi) = false ->
          (reports (errorMap fd) bmi <-> invalid 10 100 (get fd bmi))))
  /\ errorMap scenario_A = ∅
  /\ forall s : State, formData s = scenario_A -> fst (validateInputs s) = true.
Proof.
  split; [| split].
  - intros fd. unfold reports. rewrite !errorMap_lookup. unfold rule.
    split; [| split]; intros Hnan; apply check_field_invalid;
      solve [reflexivity | assumption].
  - vm_compute. reflexivity.
  - intros s E. rewrite validateInputs_eq, E. vm_compute. reflexivity.
Qed.

(** The statement on age at a form whose BMI is NaN (age 150 is reported),
    and the three statements together at scenario A. *)
Lemma validateInputs_flags_invalid_fields_beside_NaN :
  let fd := filled (Number 150) (Number 105.5) (Number PrimFloat.nan)
              (formData initial) in
  is_NaN (get fd bmi) = true
  /\ (reports (errorMap fd) age <-> invalid 0 120 (get fd age))
  /\ reports (errorMap fd) age
  /\ flags_exactly_the_invalid scenario_A.
Proof.
  cbv zeta. split; [vm_compute; reflexivity |]. split; [| split].
  - apply (proj1 (proj1 validateInputs_flags_invalid_fields
                    (filled (Number 150) (Number 105.5) (Number PrimFloat.nan)
                       (formData initial)))).
    vm_compute. reflexivity.
  - vm_compute. eauto.
  - pose proof (proj1 validateInputs_flags_invalid_fields scenario_A)
      as (Ha & Hg & Hb).
    split; [apply Ha | split; [apply Hg | apply Hb]]; vm_compute; reflexivity.
Defined.

(** C1 (as stated) fails on a well-typed record: with NaN as the age, which
    is of type number and not within 0..120, the error map has no entry for
    age. *)
Lemma validateInputs_NaN_age_not_flagged :
  PatientData with_NaN_age /\ ~ flags_exactly_the_invalid with_NaN_age.
Proof.
  split.
  - split.
    + by exists Male.
    + right. by exists PrimFloat.nan.
    + by exists false.
    + by exists false.
    + by exists true.
    + by exists Private.
    + by exists Urban.
    + right. by exists 105.5%float.
    + right. by exists 50%float.
    + by exists NeverSmoked.
  - intros [[_ H] _].
    destruct H as [v Hv].
    + right; right. exists PrimFloat.nan. split; [vm_compute; reflexivity |].
      vm_compute. intros [? _]; discriminate.
    + vm_compute in Hv. discriminate.
Qed.

(** C4. A call of the validator changes no state cell but the error map;
    the error map and the returned flag are functions of the form data alone;
    and a second call on the state the first one left returns the same flag
    and leaves the same state, so the same error map. *)
Theorem validateInputs_pure (s : State) :
  let s' := snd (validateInputs s) in
  (formData s' = formData s /\ result s' = result s
   /\ loading s' = loading s /\ error s' = error s)
  /\ validationErrors s' = errorMap (formData s)
  /\ validateInputs s' = validateInputs s
  /\ (forall s2 : State,
        formData s2 = formData s ->
        fst (validateInputs s2) = fst (validateInputs s)
        /\ validationErrors (snd (validateInputs s2)) = validationErrors s').
Proof.
  cbv zeta. rewrite !validateInputs_eq. simpl.
  repeat split; intros; rewrite validateInputs_eq; simpl; congruence.
Qed.


(** C6. The flag the validator returns is true exactly when the error map
    it stores is empty. *)
Theorem validateInputs_valid_iff_no_errors (s : State) :
  fst (validateInputs s) = true <-> validationErrors (snd (validateInputs s)) = ∅.
Proof. rewrite validateInputs_eq. simpl. apply validateInputs_locals_valid. Qed.

(** ** The handlers *)

(** [handleSubmit] by cases on the validator's flag. *)
Lemma handleSubmit_eq s :
  handleSubmit s =
  let s1 := setValidationErrors (fun _ => errorMap (formData s))
              (setResult Null (setError None s)) in
  if snd (validateInputs_locals (formData s))
  then Await (setLoading true s1) (formData s)
         (fun outcome s =>
            setLoading false
              match outcome with
              | Fulfilled prediction => setResult prediction s
              | Rejected _ =>
                  setError (Some "Failed to generate prediction. Please try again.") s
              end)
  else Done (setError (Some "Please correct the errors in the highlighted fields.") s1).
Proof.
  unfold handleSubmit. rewrite validateInputs_eq. simpl.
  destruct (snd (validateInputs_locals (formData s))); reflexivity.
Qed.

(** The handler itself does not look at [loading]: the only gate is the
    button. *)
Lemma handleSubmit_ignores_loading s b :
  match handleSubmit s, handleSubmit (setLoading b s) with
  | Done _, Done _ => True
  | Await _ data _, Await _ data' _ => data = data'
  | _, _ => False
  end.
Proof.
  rewrite !handleSubmit_eq. simpl.
  destruct (snd (validateInputs_locals (formData s))); done.
Qed.

(** C7. When the validator reports the form invalid, [handleSubmit] ends
    before its [await]: no call of [predictStrokeRisk] is issued. It leaves
    [loading] as it was, stores the error map of the form, sets the summary
    message, leaves the result null and the form data untouched. On the page,
    a click on the enabled button then leaves the list of pending requests
    unchanged and the button enabled. *)
Theorem handleSubmit_invalid_stays_local (s : State) :
  fst (validateInputs s) = false ->
  exists s' : State,
    handleSubmit s = Done s'
    /\ loading s' = loading s
    /\ validationErrors s' = errorMap (formData s)
    /\ error s' = Some "Please correct the errors in the highlighted fields."
    /\ result s' = Null
    /\ formData s' = formData s
    /\ forall (JSON_stringify : Obj -> string) (p : Page),
         ui p = s -> submit_disabled s = false ->
         dispatch JSON_stringify Click p = mkPage s' (pending p) (console p)
         /\ submit_disabled s' = false.
Proof.
  rewrite validateInputs_eq. simpl. intros Hv. eexists.
  rewrite handleSubmit_eq, Hv. cbv zeta. split; [reflexivity |]. simpl.
  repeat split; [| assumption].
  intros. unfold dispatch.
  match goal with
  | Hui : ui p = s, Hd : submit_disabled s = false |- _ =>
      rewrite Hui, Hd, handleSubmit_eq, Hv
  end.
  reflexivity.
Qed.

Lemma handleSubmit_invalid_stays_local_initial :
  exists s' : State,
    handleSubmit initial = Done s'
    /\ loading s' = loading initial
    /\ validationErrors s' = errorMap (formData initial)
    /\ error s' = Some "Please correct the errors in the highlighted fields."
    /\ result s' = Null
    /\ formData s' = formData initial
    /\ forall (JSON_stringify : Obj -> string) (p : Page),
         ui p = initial -> submit_disabled initial = false ->
         dispatch JSON_stringify Click p = mkPage s' (pending p) (console p)
         /\ submit_disabled s' = false.
Proof.
  apply (handleSubmit_invalid_stays_local initial). vm_compute. reflexivity.
Defined.

(** C10. [handleInputChange field value] sets that field of the form data
    to the value and leaves that field without a shown error; every other
    field of the form data and every other entry of the error map is what it
    was, and so are the result, the loading flag and the error message. *)
Theorem handleInputChange_changes_one_field
    (field other : Field) (value : Value) (s : State) :
  other <> field ->
  let s' := handleInputChange field value s in
  formData s' !! field = Some value
  /\ truthy (get (validationErrors s') field) = false
  /\ formData s' !! other = formData s !! other
  /\ validationErrors s' !! other = validationErrors s !! other
  /\ result s' = result s /\ loading s' = loading s /\ error s' = error s.
Proof.
  intros Hne. unfold handleInputChange.
  destruct (truthy (get (validationErrors s) field)) eqn:E; simpl;
    rewrite ?lookup_insert_eq, ?get_insert_eq; repeat split;
    try assumption; by rewrite lookup_insert_ne.
Qed.

Lemma handleInputChange_changes_one_field_age :
  let s := setValidationErrors (fun _ => errorMap (formData initial)) initial in
  let s' := handleInputChange age (Number 45) s in
  formData s' !! age = Some (Number 45)
  /\ truthy (get (validationErrors s') age) = false
  /\ formData s' !! bmi = formData s !! bmi
  /\ validationErrors s' !! bmi = validationErrors s !! bmi
  /\ result s' = result s /\ loading s' = loading s /\ error s' = error s.
Proof.
  apply (handleInputChange_changes_one_field age bmi (Number 45)). discriminate.
Defined.

(** ** The page *)

Lemma page_inv_start : page_inv start.
Proof. apply inv_idle; try reflexivity. by left. Qed.

Lemma handleInputChange_frame field value s :
  result (handleInputChange field value s) = result s
  /\ loading (handleInputChange field value s) = loading s
  /\ error (handleInputChange field value s) = error s.
Proof. unfold handleInputChange. by case_match. Qed.

(** Every event keeps the invariant. *)
Lemma page_inv_dispatch js e p : page_inv p -> page_inv (dispatch js e p).
Proof.
  intros Hinv. destruct e as [field value| |i reply]; simpl.
  - destruct (handleInputChange_frame field value (ui p)) as (Hr & Hl & He).
    destruct Hinv as [Hp Hl' Hre|data k Hp Hk Hl' Hr' He'].
    + apply inv_idle; simpl; [done | congruence | by rewrite Hr, He].
    + eapply inv_submitting; simpl; [done | done | congruence ..].
  - destruct (submit_disabled (ui p)) eqn:Hd; [done |].
    unfold submit_disabled in Hd.
    destruct Hinv as [Hp Hl' Hre|data k Hp Hk Hl' Hr' He']; [| congruence].
    rewrite handleSubmit_eq. cbv zeta.
    destruct (snd (validateInputs_locals (formData (ui p)))).
    + eapply inv_submitting; simpl; [by rewrite Hp | by intros ? ? | done ..].
    + apply inv_idle; simpl; [done | done | by left].
  - destruct Hinv as [Hp Hl' Hre|data k Hp Hk Hl' Hr' He'].
    + rewrite Hp. simpl. by apply inv_idle.
    + rewrite Hp. destruct i as [|i]; simpl; [| by eapply inv_submitting].
      destruct (predictStrokeRisk js (fun _ => reply) data) as [logged outcome].
      rewrite Hk.
      apply inv_idle; simpl; [done | done |].
      destruct outcome; simpl; [by right | by left].
Qed.

Lemma page_inv_run js events : forall p, page_inv p -> page_inv (run js events p).
Proof.
  induction events as [|e events IH]; intros p Hinv; simpl; [done |].
  apply IH. by apply page_inv_dispatch.
Qed.

(** C8. After any sequence of events from the initial page, at most one
    request is pending; whenever one is pending the submit button is
    disabled; and a click on the disabled button changes nothing, so it issues
    no second call. *)
Theorem at_most_one_request_in_flight
    (JSON_stringify : Obj -> string) (events : list Event) :
  let p := run JSON_stringify events start in
  length (pending p) <= 1
  /\ (pending p <> [] -> submit_disabled (ui p) = true)
  /\ (submit_disabled (ui p) = true -> dispatch JSON_stringify Click p = p).
Proof.
  cbv zeta. pose proof (page_inv_run JSON_stringify events start page_inv_start) as Hinv.
  split; [| split].
  - destruct Hinv as [Hp _ _|data k Hp _ _ _ _]; rewrite Hp; simpl; lia.
  - destruct Hinv as [Hp _ _|data k Hp _ Hl _ _]; [congruence | done].
  - intros Hd. simpl. by rewrite Hd.
Qed.

(** C9. After any sequence of events from the initial page, the stored
    result and the stored error message are not both non-null. A submission
    starts with both null (and stops there with the summary message, or awaits
    with both still null), and the resumed handler writes one of the two and
    leaves the other as it finds it. *)
Theorem result_and_error_exclusive
    (JSON_stringify : Obj -> string) (events : list Event) :
  let p := run JSON_stringify events start in
  ~ (result (ui p) <> Null /\ error (ui p) <> None)
  /\ forall s : State,
       match handleSubmit s with
       | Done s' => result s' = Null
       | Await s' _ k =>
           result s' = Null /\ error s' = None
           /\ forall outcome st,
                result (k outcome st) = result st \/ error (k outcome st) = error st
       end.
Proof.
  cbv zeta. pose proof (page_inv_run JSON_stringify events start page_inv_start) as Hinv.
  split.
  - intros [Hr He].
    destruct Hinv as [_ _ [?|?]|data k _ _ _ ? ?]; congruence.
  - intros s. rewrite handleSubmit_eq. cbv zeta.
    destruct (snd (validateInputs_locals (formData s))); simpl; [| done].
    repeat split. intros [v|e] st; simpl; auto.
Qed.

(** ** The gateway *)

Lemma predictStrokeRisk_returns js gc data t v :
  gc (request js data) = Fulfilled {| text := Some t |} ->
  t <> "" -> JSON.parse t = inl v ->
  predictStrokeRisk js gc data = ([], Fulfilled v).
Proof.
  intros Hgc Ht Hp. unfold predictStrokeRisk, try_block. rewrite Hgc. simpl.
  destruct (String.eqb_spec t ""); [contradiction |]. simpl. by rewrite Hp.
Qed.

(** C2. When the remote call returns the text of the specification
    (strokePrediction true, probability 72, riskLevel High Risk),
    [predictStrokeRisk] resolves with exactly the object of those three
    values and logs nothing. The probability is not checked or clamped: 172
    and -3.5 come back as they are, and in general whatever value the text
    parses to is the value returned. *)
Theorem predictStrokeRisk_returns_parsed_reply
    (JSON_stringify : Obj -> string) (data : Obj) :
  predictStrokeRisk JSON_stringify (replies (Some (reply_text "72"))) data
  = ([], Fulfilled (reply_value 72))
  /\ predictStrokeRisk JSON_stringify (replies (Some (reply_text "172"))) data
     = ([], Fulfilled (reply_value 172))
  /\ predictStrokeRisk JSON_stringify (replies (Some (reply_text "-3.5"))) data
     = ([], Fulfilled (reply_value (-3.5)))
  /\ forall gc t v,
       gc (request JSON_stringify data) = Fulfilled {| text := Some t |} ->
       t <> "" -> JSON.parse t = inl v ->
       predictStrokeRisk JSON_stringify gc data = ([], Fulfilled v).
Proof.
  repeat split; try (vm_compute; reflexivity).
  intros gc t v Hgc Ht Hp. by apply (predictStrokeRisk_returns _ _ _ t).
Qed.

(** C3 (as amended). [predictStrokeRisk] fails in exactly three ways and
    succeeds otherwise: when the remote call rejects, it rejects with the same
    error; when the reply has no text or an empty text, it rejects with the
    error No response from AI model; when the text is not valid JSON, it
    rejects with the SyntaxError of the parser; and when the text is valid
    JSON it resolves with the parsed value, whether or not that value has the
    declared shape. Every rejection is logged once. The error for an empty
    text is never a parser error, and the errors for the empty text and for the
    text not json differ. *)
Theorem predictStrokeRisk_outcomes (JSON_stringify : Obj -> string)
    (gc : GenerateContentParameters -> Settled GenerateContentResponse) (data : Obj) :
  outcome_by_cases JSON_stringify gc data
  /\ (forall e,
        snd (predictStrokeRisk JSON_stringify gc data) = Rejected e ->
        fst (predictStrokeRisk JSON_stringify gc data) = [("Prediction error:", e)])
  /\ (forall t e, JSON.parse t = inr e -> e <> no_response)
  /\ exists e1 e2,
       snd (predictStrokeRisk JSON_stringify (replies (Some "")) data) = Rejected e1
       /\ snd (predictStrokeRisk JSON_stringify (replies (Some "not json")) data)
          = Rejected e2
       /\ e1 = no_response /\ name e2 = "SyntaxError" /\ e1 <> e2.
Proof.
  split; [| split; [| split]].
  - unfold outcome_by_cases, predictStrokeRisk, try_block. cbv zeta.
    destruct (gc (request JSON_stringify data)) as [[[t|]]|e]; simpl; try reflexivity.
    destruct (String.eqb t ""); simpl; [reflexivity |].
    destruct (JSON.parse t); reflexivity.
  - intros e. unfold predictStrokeRisk.
    destruct (try_block JSON_stringify gc data); simpl; congruence.
  - intros t e Hp ->. apply parse_error in Hp. discriminate.
  - exists no_response, JSON.SyntaxError. repeat split; try (vm_compute; reflexivity).
    discriminate.
Qed.

(** C3 (as stated) fails: the text 42 is valid JSON that does not have the
    declared shape, and the gateway resolves with the number instead of
    failing. *)
Lemma predictStrokeRisk_accepts_off_schema_reply :
  JSON.parse "42" = inl (Number 42)
  /\ conforms schema (Number 42) = false
  /\ snd (predictStrokeRisk (fun _ => "") (replies (Some "42")) ∅) = Fulfilled (Number 42)
  /\ ~ outcome_with_schema_check (fun _ => "") (replies (Some "42")) ∅.
Proof.
  repeat split; try (vm_compute; reflexivity).
  unfold outcome_with_schema_check. vm_compute. intros [e H]. discriminate.
Qed.

(** * Further properties *)

Import View Terms.

(** ** More on the validator *)

(** The first test of a rule is the [typeof] test: the empty string is not
    a number. *)
Lemma required_test v :
  strict_eq v (Str "") || negb (String.eqb (typeof v) "number")
  = negb (String.eqb (typeof v) "number").
Proof. destruct v; simpl; rewrite ?orb_true_r, ?orb_false_l; reflexivity. Qed.

Lemma rules_lookup fd f lo hi req rng :
  (f, lo, hi, req, rng) ∈ rules ->
  errorMap fd !! f =
  fst (check_field {[f := get fd f]} f lo hi req rng (∅, true)) !! f
  /\ PrimFloat.is_nan lo = false /\ PrimFloat.is_nan hi = false
  /\ req <> rng /\ req <> "" /\ rng <> "".
Proof.
  unfold rules. rewrite !elem_of_cons, elem_of_nil.
  intros [E|[E|[E|[]]]]; injection E as -> -> -> -> ->;
    rewrite errorMap_lookup; repeat split; discriminate.
Qed.

(** X2. For each of the three rules, the error map holds the required
    message for the field exactly when the value is not of type number (the
    empty sentinel included), the range message exactly when it is a number,
    not NaN, and not within the bounds, and no entry exactly when it is a
    number within the bounds or NaN. *)
Theorem errorMap_message_selection fd f lo hi req rng :
  (f, lo, hi, req, rng) ∈ rules ->
  (errorMap fd !! f = Some (Str req) <-> typeof (get fd f) <> "number")
  /\ (errorMap fd !! f = Some (Str rng) <->
      exists x, get fd f = Number x /\ PrimFloat.is_nan x = false
                /\ ~ (PrimFloat.leb lo x = true /\ PrimFloat.leb x hi = true))
  /\ (errorMap fd !! f = None <->
      exists x, get fd f = Number x
                /\ (PrimFloat.is_nan x = true
                    \/ (PrimFloat.leb lo x = true /\ PrimFloat.leb x hi = true))).
Proof.
  intros Hin. destruct (rules_lookup fd _ _ _ _ _ Hin) as (-> & Hlo & Hhi & Hne & _ & _).
  rewrite check_field_same, get_singleton, required_test. simpl fst. rewrite lookup_empty.
  destruct (get fd f) as [| |b|x|s|items|props]; simpl.
  all: try (split; [split; [intros _; discriminate | reflexivity] |
                 split; split; try discriminate; try congruence;
                 intros (? & ? & _); discriminate]).
  unfold greaterThan. simpl.
  destruct (PrimFloat.is_nan x) eqn:Hx.
  - rewrite (ltb_nan_l _ _ Hx), (ltb_nan_r _ _ Hx). simpl.
    split; [split; [discriminate | intros H; by destruct H] |].
    split; split; try discriminate.
    + intros (y & [= <-] & Hy & _). congruence.
    + intros _. exists x. auto.
    + reflexivity.
  - rewrite (ltb_negb_leb x lo), (ltb_negb_leb hi x) by assumption.
    split; [split; [repeat case_match; congruence | intros H; by destruct H] |].
    destruct (PrimFloat.leb lo x) eqn:E1, (PrimFloat.leb x hi) eqn:E2; simpl.
    + split; split; try discriminate.
      * intros (y & [= <-] & _ & Hn). exfalso. apply Hn. rewrite E1, E2. auto.
      * intros _. exists x. split; [reflexivity |]. right. auto.
      * reflexivity.
    + split; split; try discriminate; try reflexivity.
      * intros _. exists x. repeat split; try done. rewrite E2. intros [_ ?]; discriminate.
      * intros (y & [= <-] & [?|[_ ?]]); congruence.
    + split; split; try discriminate; try reflexivity.
      * intros _. exists x. repeat split; try done. rewrite E1. intros [? _]; discriminate.
      * intros (y & [= <-] & [?|[? _]]); congruence.
    + split; split; try discriminate; try reflexivity.
      * intros _. exists x. repeat split; try done. rewrite E1. intros [? _]; discriminate.
      * intros (y & [= <-] & [?|[? _]]); congruence.
Qed.

Lemma errorMap_message_selection_example :
  (errorMap (formData initial) !! age = Some (Str "Age is required.")
   <-> typeof (get (formData initial) age) <> "number")
  /\ (errorMap (formData initial) !! age = Some (Str "Please enter a valid age (0-120).") <->
      exists x, get (formData initial) age = Number x /\ PrimFloat.is_nan x = false
                /\ ~ (PrimFloat.leb 0 x = true /\ PrimFloat.leb x 120 = true))
  /\ (errorMap (formData initial) !! age = None <->
      exists x, get (formData initial) age = Number x
                /\ (PrimFloat.is_nan x = true
                    \/ (PrimFloat.leb 0 x = true /\ PrimFloat.leb x 120 = true))).
Proof.
  apply (errorMap_message_selection (formData initial) age 0 120
           "Age is required." "Please enter a valid age (0-120).").
  unfold rules. apply list_elem_of_here.
Defined.

(** Every entry of the error map is one of the messages of a rule. *)
Lemma errorMap_entry fd f v :
  errorMap fd !! f = Some v ->
  exists lo hi req rng,
    (f, lo, hi, req, rng) ∈ rules /\ (v = Str req \/ v = Str rng).
Proof.
  rewrite errorMap_lookup. unfold rule, rules.
  destruct f; try discriminate; rewrite check_field_same; simpl fst;
    rewrite lookup_empty; intros E; do 4 eexists.
  - split; [apply list_elem_of_here |]. repeat case_match; simplify_eq; auto.
  - split; [apply list_elem_of_further, list_elem_of_here |].
    repeat case_match; simplify_eq; auto.
  - split; [do 2 apply list_elem_of_further; apply list_elem_of_here |].
    repeat case_match; simplify_eq; auto.
Qed.

(** X1. Whatever the form holds, the error map has entries only under age,
    avgGlucoseLevel and bmi, and every entry is a non-empty string, hence
    truthy: the other seven fields are never reported. *)
Theorem errorMap_entries_are_rule_messages fd f v :
  errorMap fd !! f = Some v ->
  (f = age \/ f = avgGlucoseLevel \/ f = bmi)
  /\ truthy v = true
  /\ exists m, v = Str m /\ m <> "".
Proof.
  intros E. destruct (errorMap_entry _ _ _ E) as (lo & hi & req & rng & Hin & Hv).
  unfold rules in Hin. rewrite !elem_of_cons, elem_of_nil in Hin.
  destruct Hin as [Hr|[Hr|[Hr|[]]]]; injection Hr as -> -> -> -> ->;
    (split; [auto |]); destruct Hv as [-> | ->]; (split; [reflexivity |]);
    eexists; (split; [reflexivity | discriminate]).
Qed.

Lemma errorMap_entries_are_rule_messages_example :
  (age = age \/ age = avgGlucoseLevel \/ age = bmi)
  /\ truthy (Str "Age is required.") = true
  /\ exists m, Str "Age is required." = Str m /\ m <> "".
Proof.
  apply (errorMap_entries_are_rule_messages (formData initial) age (Str "Age is required.")). vm_compute. reflexivity.
Defined.

(** ** Highlighting *)

Lemma truthy_entry fd f :
  truthy (get (errorMap fd) f) = true <-> is_Some (errorMap fd !! f).
Proof.
  unfold get. destruct (errorMap fd !! f) as [v|] eqn:E; simpl.
  - destruct (errorMap_entry _ _ _ E) as (lo & hi & req & rng & Hin & Hv).
    destruct (rules_lookup fd _ _ _ _ _ Hin) as (_ & _ & _ & _ & Hreq & Hrng).
    split; [eauto | intros _].
    destruct Hv as [-> | ->]; simpl; apply negb_true_iff, String.eqb_neq; assumption.
  - split; [discriminate | intros [? ?]; discriminate].
Qed.

Lemma getInputClass_highlighted f s :
  highlighted f s <-> truthy (get (validationErrors s) f) = true.
Proof.
  unfold highlighted, getInputClass.
  destruct (truthy (get (validationErrors s) f)); simpl; split; try done; discriminate.
Qed.

(** X3. After a call of the validator an input is drawn with the red
    border, and carries its message, exactly when the error map reports its
    field. Editing a field removes its own highlight and message and leaves
    the highlight and message of every other field as they were. *)
Theorem getInputClass_follows_validation (s : State) (f : Field) :
  (highlighted f (snd (validateInputs s)) <-> reports (errorMap (formData s)) f)
  /\ fieldMessage f (snd (validateInputs s)) = errorMap (formData s) !! f
  /\ (forall v, ~ highlighted f (handleInputChange f v s)
                /\ fieldMessage f (handleInputChange f v s) = None)
  /\ (forall g v, g <> f ->
        (highlighted f (handleInputChange g v s) <-> highlighted f s)
        /\ fieldMessage f (handleInputChange g v s) = fieldMessage f s).
Proof.
  split; [| split; [| split]].
  - rewrite getInputClass_highlighted, validateInputs_eq. simpl. apply truthy_entry.
  - unfold fieldMessage. rewrite validateInputs_eq. simpl.
    destruct (truthy (get (errorMap (formData s)) f)) eqn:E.
    + apply truthy_entry in E. destruct E as [v E]. unfold get. by rewrite E.
    + destruct (errorMap (formData s) !! f) eqn:E'; [| done].
      assert (truthy (get (errorMap (formData s)) f) = true) by (apply truthy_entry; eauto).
      congruence.
  - intros v. rewrite getInputClass_highlighted. unfold fieldMessage, handleInputChange.
    destruct (truthy (get (validationErrors s) f)) eqn:E; simpl;
      rewrite ?get_insert_eq; simpl; rewrite ?E; split; congruence.
  - intros g v Hne. rewrite !getInputClass_highlighted. unfold fieldMessage, handleInputChange.
    destruct (truthy (get (validationErrors s) g)); simpl;
      rewrite ?get_insert_ne by done; done.
Qed.

(** ** Composing edits *)

(** X4. Two edits of the same field leave the state of the second edit
    alone; edits of different fields commute. *)
Theorem handleInputChange_composes (s : State) (f g : Field) (v w : Value) :
  handleInputChange f w (handleInputChange f v s) = handleInputChange f w s
  /\ (f <> g ->
      handleInputChange f v (handleInputChange g w s)
      = handleInputChange g w (handleInputChange f v s)).
Proof.
  split.
  - unfold handleInputChange.
    destruct (truthy (get (validationErrors s) f)) eqn:E; simpl;
      rewrite ?get_insert_eq; simpl; rewrite ?E;
      unfold setFormData, setValidationErrors; simpl; by rewrite insert_insert_eq.
  - intros Hne. unfold handleInputChange.
    destruct (truthy (get (validationErrors s) f)) eqn:Ef,
             (truthy (get (validationErrors s) g)) eqn:Eg; simpl;
      rewrite ?get_insert_ne by done; rewrite ?Ef, ?Eg;
      unfold setFormData, setValidationErrors; simpl;
      f_equal; by apply insert_insert_ne.
Qed.

(** ** The controls *)

Lemma PatientData_has_type fd :
  PatientData fd <-> forall f, exists v, fd !! f = Some v /\ has_type f v.
Proof.
  split.
  - intros [Hg Ha Hh Hd Hm Hw Hr Hl Hb Hs] f. destruct f; simpl;
      repeat match goal with
      | H : exists _, _ |- _ => destruct H
      | H : _ \/ _ |- _ => destruct H
      end; eauto 6.
  - intros H. split;
      [destruct (H gender) | destruct (H age) | destruct (H hypertension)
      | destruct (H heartDisease) | destruct (H everMarried) | destruct (H workType)
      | destruct (H residenceType) | destruct (H avgGlucoseLevel) | destruct (H bmi)
      | destruct (H smokingStatus)];
      simpl in *;
      repeat match goal with
      | H : _ /\ _ |- _ => destruct H
      | H : exists _, _ |- _ => destruct H
      | H : _ \/ _ |- _ => destruct H
      end; subst; eauto.
Qed.

Lemma PatientData_insert fd f v :
  PatientData fd -> has_type f v -> PatientData (<[f := v]> fd).
Proof.
  rewrite !PatientData_has_type. intros H Hv g.
  destruct (decide (f = g)) as [<- | Hne].
  - exists v. by rewrite lookup_insert_eq.
  - rewrite lookup_insert_ne by done. apply H.
Qed.

Lemma PatientData_initial : PatientData (formData initial).
Proof.
  split; try (left; reflexivity);
    solve [by exists Male | by exists Private | by exists Urban
          | by exists NeverSmoked | by eexists].
Qed.

(** What an offered control passes on has the type of its field. *)
Lemma change_has_type T c s :
  offered c -> has_type (fst (change T c s)) (snd (change T c s)).
Proof.
  destruct c; simpl; unfold Gender_values, WorkType_values, ResidenceType_values,
    SmokingStatus_values; rewrite ?elem_of_cons, ?elem_of_nil; intros H;
    try (unfold numeric; case_match; eauto; fail); try (by eexists);
    repeat (destruct H as [H|H]); try done; eauto.
Qed.

(** A page event changes the form data only through [Change]. *)
Lemma dispatch_formData js e p :
  page_inv p ->
  formData (ui (dispatch js e p)) =
  match e with
  | Change f v => <[f := v]> (formData (ui p))
  | _ => formData (ui p)
  end.
Proof.
  intros Hinv. destruct e as [f v| |i reply]; simpl.
  - unfold handleInputChange. by case_match.
  - destruct (submit_disabled (ui p)); [done |].
    rewrite handleSubmit_eq. cbv zeta.
    destruct (snd (validateInputs_locals (formData (ui p)))); reflexivity.
  - destruct Hinv as [Hp _ _|data k Hp Hk _ _ _]; rewrite Hp; [done |].
    destruct i; simpl; [| done].
    destruct (predictStrokeRisk js (fun _ => reply) data) as [logged outcome].
    rewrite Hk. by destruct outcome.
Qed.

Lemma react_page_inv T js e p : page_inv p -> page_inv (react T js e p).
Proof.
  intros H. destruct e as [c| |i reply]; unfold react.
  - destruct (change T c (ui p)) as [f v]. exact (page_inv_dispatch js (Change f v) p H).
  - by apply page_inv_dispatch.
  - by apply page_inv_dispatch.
Qed.

Lemma session_snoc T js events e :
  session T js (events ++ [e]) = react T js e (session T js events).
Proof. unfold session. by rewrite fold_left_app. Qed.

Lemma session_page_inv T js events : page_inv (session T js events).
Proof.
  induction events as [|e events IH] using rev_ind; [apply page_inv_start |].
  rewrite session_snoc. by apply react_page_inv.
Qed.

Lemma react_formData T js e p :
  page_inv p ->
  formData (ui (react T js e p)) =
  match e with
  | Use c => <[fst (change T c (ui p)) := snd (change T c (ui p))]> (formData (ui p))
  | _ => formData (ui p)
  end.
Proof.
  intros H. destruct e as [c| |i reply]; unfold react.
  - destruct (change T c (ui p)) as [f v].
    exact (dispatch_formData js (Change f v) p H).
  - exact (dispatch_formData js Click p H).
  - exact (dispatch_formData js (Settle i reply) p H).
Qed.

(** X5. Driven through its controls (the selects delivering one of their
    options), the submit button and the replies, the form data always has the
    type PatientData: every key present and every value of its declared
    type. *)
Theorem controls_keep_PatientData (ToNumber : Value -> float) (JSON_stringify : Obj -> string)
    (events : list UIEvent) :
  Forall offered_event events ->
  PatientData (formData (ui (session ToNumber JSON_stringify events))).
Proof.
  induction events as [|e events IH] using rev_ind; intros Hall.
  - apply PatientData_initial.
  - apply Forall_app in Hall as [Hev He]. apply Forall_inv in He.
    rewrite session_snoc, react_formData by apply session_page_inv.
    destruct e as [c| |i reply]; auto.
    apply PatientData_insert; [auto | by apply change_has_type].
Qed.

Lemma controls_keep_PatientData_example :
  PatientData (formData (ui (session ToNumber_plain (fun _ => "")
    [Use (GenderSelect "Female"); Use (AgeInput "45"); Use HypertensionSwitch;
     Use (EverMarriedSelect "No"); Press]))).
Proof.
  apply controls_keep_PatientData.
  constructor; [apply list_elem_of_further, list_elem_of_here |].
  constructor; [exact I |].
  constructor; [exact I |].
  constructor; [right; reflexivity |].
  constructor; [exact I | constructor].
Defined.

(** Which fields a control writes. *)
Lemma change_numeric T c s f :
  f = age \/ f = avgGlucoseLevel \/ f = bmi ->
  numeral T c ->
  fst (change T c s) = f -> is_NaN (snd (change T c s)) = false.
Proof.
  intros Hf Hc. destruct c; simpl in *; intros <-;
    try (destruct Hf as [?|[?|?]]; discriminate);
    unfold numeric; simpl; destruct (String.eqb_spec value ""); simpl; try done;
    by destruct Hc.
Qed.

Lemma session_no_NaN T js events f :
  f = age \/ f = avgGlucoseLevel \/ f = bmi ->
  Forall (numeral_event T) events ->
  is_NaN (get (formData (ui (session T js events))) f) = false.
Proof.
  intros Hf. induction events as [|e events IH] using rev_ind; intros Hall.
  - destruct Hf as [->|[->| ->]]; reflexivity.
  - apply Forall_app in Hall as [Hev He]. apply Forall_inv in He.
    rewrite session_snoc, react_formData by apply session_page_inv.
    destruct e as [c| |i reply]; auto.
    destruct (decide (fst (change T c (ui (session T js events))) = f)) as [E|E].
    + subst f. rewrite get_insert_eq. by eapply change_numeric.
    + rewrite get_insert_ne by done. auto.
Qed.

(** X6. When the numeric inputs deliver the empty text or a text whose
    number is not NaN, then on every page reachable through the controls, the
    submit button and the replies, the validator reports each of age,
    avgGlucoseLevel and bmi exactly when it is unset, not a number, or not
    within its bounds. *)
Theorem controls_keep_validation_exact (ToNumber : Value -> float) (JSON_stringify : Obj -> string)
    (events : list UIEvent) :
  Forall (numeral_event ToNumber) events ->
  flags_exactly_the_invalid (formData (ui (session ToNumber JSON_stringify events))).
Proof.
  intros Hall. unfold flags_exactly_the_invalid, reports.
  rewrite !errorMap_lookup. unfold rule.
  repeat split; apply check_field_invalid; try reflexivity;
    apply session_no_NaN; auto.
Qed.

Lemma controls_keep_validation_exact_example :
  flags_exactly_the_invalid (formData (ui (session ToNumber_plain (fun _ => "")
    [Use (AgeInput "150"); Use (GlucoseInput "105.5"); Use (BmiInput ""); Press]))).
Proof.
  apply controls_keep_validation_exact.
  constructor; [right; vm_compute; reflexivity |].
  constructor; [right; vm_compute; reflexivity |].
  constructor; [left; reflexivity |].
  constructor; [exact I | constructor].
Defined.

(** ** Settlement *)

(** The page after the pending request settles. *)
Lemma dispatch_Settle js p data k reply :
  pending p = [(data, k)] -> resumes k ->
  dispatch js (Settle 0 reply) p =
  mkPage
    (setLoading false
       match snd (predictStrokeRisk js (fun _ => reply) data) with
       | Fulfilled prediction => setResult prediction (ui p)
       | Rejected _ =>
           setError (Some "Failed to generate prediction. Please try again.") (ui p)
       end)
    []
    (console p ++ fst (predictStrokeRisk js (fun _ => reply) data)).
Proof.
  intros Hp Hk. unfold dispatch. rewrite Hp. simpl.
  destruct (predictStrokeRisk js (fun _ => reply) data) as [logged outcome].
  by rewrite Hk.
Qed.

(** X7. When the pending request settles, the page is left with no
    pending request, the button enabled, the form data and the error map
    untouched. A fulfilled prediction is stored as the result with no error and
    nothing logged; any failure of the gateway, whichever it is, leaves the
    result null, sets the one message Failed to generate prediction. Please
    try again., and appends the specific error to the console. *)
Theorem settlement_outcome (JSON_stringify : Obj -> string) (events : list Event)
    (reply : Settled GenerateContentResponse) :
  let p := run JSON_stringify events start in
  pending p <> [] ->
  exists data k,
    pending p = [(data, k)]
    /\ let p' := dispatch JSON_stringify (Settle 0 reply) p in
       pending p' = [] /\ loading (ui p') = false
       /\ formData (ui p') = formData (ui p)
       /\ validationErrors (ui p') = validationErrors (ui p)
       /\ match snd (predictStrokeRisk JSON_stringify (fun _ => reply) data) with
          | Fulfilled v =>
              result (ui p') = v /\ error (ui p') = None /\ console p' = console p
          | Rejected e =>
              result (ui p') = Null
              /\ error (ui p') = Some "Failed to generate prediction. Please try again."
              /\ console p' = (console p ++ [("Prediction error:", e)])%list
          end.
Proof.
  cbv zeta. pose proof (page_inv_run JSON_stringify events start page_inv_start) as Hinv.
  intros Hne. destruct Hinv as [Hp _ _|data k Hp Hk Hl Hr He]; [congruence |].
  exists data, k. split; [done |].
  rewrite (dispatch_Settle _ _ _ _ _ Hp Hk). simpl.
  unfold predictStrokeRisk.
  destruct (try_block JSON_stringify (fun _ => reply) data); simpl;
    rewrite ?app_nil_r; auto 10.
Qed.

Lemma settlement_outcome_example :
  let js : Obj -> string := fun _ => "" in
  let events :=
    [Change age (Number 45); Change avgGlucoseLevel (Number 105.5);
     Change bmi (Number 30); Click] in
  let reply : Settled GenerateContentResponse := Fulfilled {| text := Some "not json" |} in
  let p := run js events start in
  exists data k,
    pending p = [(data, k)]
    /\ let p' := dispatch js (Settle 0 reply) p in
       pending p' = [] /\ loading (ui p') = false
       /\ formData (ui p') = formData (ui p)
       /\ validationErrors (ui p') = validationErrors (ui p)
       /\ match snd (predictStrokeRisk js (fun _ => reply) data) with
          | Fulfilled v =>
              result (ui p') = v /\ error (ui p') = None /\ console p' = console p
          | Rejected e =>
              result (ui p') = Null
              /\ error (ui p') = Some "Failed to generate prediction. Please try again."
              /\ console p' = (console p ++ [("Prediction error:", e)])%list
          end.
Proof.
  cbv zeta. apply (settlement_outcome (fun _ => "")). vm_compute. discriminate.
Defined.

(** Field changes and clicks leave a pending request pending. *)
Lemma run_no_settlement js more : forall p data k,
  Forall no_settlement more ->
  pending p = [(data, k)] -> loading (ui p) = true ->
  pending (run js more p) = [(data, k)] /\ loading (ui (run js more p)) = true.
Proof.
  induction more as [|e more IH]; intros p data k Hall Hp Hl; [done |].
  apply Forall_cons_1 in Hall as [He Hmore].
  change (run js (e :: more) p) with (run js more (dispatch js e p)).
  destruct e as [f v| |i reply]; [| | by destruct He].
  - apply IH; [done | done |]. simpl.
    by destruct (handleInputChange_frame f v (ui p)) as (_ & -> & _).
  - assert (E : dispatch js Click p = p)
      by (simpl; unfold submit_disabled; by rewrite Hl).
    rewrite E. by apply IH.
Qed.

(** X8. On every reachable page the loading flag is true exactly when a
    request is pending. A settlement event, whatever the reply, leaves the
    flag false and no request pending. Nothing else ends the wait: after any
    field changes and clicks with no settlement among them, the same request
    is still pending and the flag is still true. A click while the flag is
    false and the form is valid issues exactly one request, carrying the
    current form data. *)
Theorem loading_iff_pending (JSON_stringify : Obj -> string) (events : list Event) :
  let p := run JSON_stringify events start in
  (loading (ui p) = true <-> pending p <> [])
  /\ (forall reply,
        let p' := dispatch JSON_stringify (Settle 0 reply) p in
        loading (ui p') = false /\ pending p' = [])
  /\ (forall more,
        Forall no_settlement more -> pending p <> [] ->
        pending (run JSON_stringify more p) = pending p
        /\ loading (ui (run JSON_stringify more p)) = true)
  /\ (loading (ui p) = false ->
      fst (validateInputs (ui p)) = true ->
      exists k, pending (dispatch JSON_stringify Click p) = [(formData (ui p), k)]).
Proof.
  cbv zeta. pose proof (page_inv_run JSON_stringify events start page_inv_start) as Hinv.
  split; [| split; [| split]].
  - destruct Hinv as [Hp Hl _|data k Hp Hk Hl _ _]; rewrite Hp, Hl; split; congruence.
  - intros reply.
    destruct Hinv as [Hp Hl _|data k Hp Hk Hl _ _].
    + unfold dispatch. rewrite Hp. simpl. auto.
    + rewrite (dispatch_Settle _ _ _ _ _ Hp Hk). simpl. auto.
  - intros more Hall Hne.
    destruct Hinv as [Hp Hl _|data k Hp Hk Hl _ _]; [congruence |].
    rewrite Hp. by apply run_no_settlement.
  - intros Hd Hv. unfold dispatch, submit_disabled. rewrite Hd, handleSubmit_eq. cbv zeta.
    rewrite validateInputs_eq in Hv. simpl in Hv. rewrite Hv.
    destruct Hinv as [Hp Hl _|data k Hp Hk Hl _ _]; [| congruence].
    rewrite Hp. simpl. eauto.
Qed.

(** Changes of fields leave the pending requests alone. *)
Lemma run_edits js l : forall p,
  pending (run js (edits l) p) = pending p
  /\ formData (ui (run js (edits l) p)) =
     fold_left (fun fd '(f, v) => <[f := v]> fd) l (formData (ui p)).
Proof.
  induction l as [|[f v] l IH]; intros p; [done |].
  change (run js (edits ((f, v) :: l)) p)
    with (run js (edits l) (dispatch js (Change f v) p)).
  destruct (IH (dispatch js (Change f v) p)) as [-> ->]. simpl.
  split; [done |]. f_equal. unfold handleInputChange. by case_match.
Qed.

(** X9. The request issued by a click carries the form data of the moment
    of the click: field changes made while it is pending do not alter it, the
    prediction stored is the gateway's outcome on the data of the click, and
    the form keeps the later changes after the settlement. *)
Theorem request_carries_form_at_click (JSON_stringify : Obj -> string) (events : list Event)
    (changes : list (Field * Value)) (reply : Settled GenerateContentResponse) :
  let p := run JSON_stringify events start in
  submit_disabled (ui p) = false ->
  fst (validateInputs (ui p)) = true ->
  let q := run JSON_stringify (Click :: edits changes) p in
  let r := dispatch JSON_stringify (Settle 0 reply) q in
  (exists k, pending q = [(formData (ui p), k)])
  /\ formData (ui r) = fold_left (fun fd '(f, v) => <[f := v]> fd) changes (formData (ui p))
  /\ match snd (predictStrokeRisk JSON_stringify (fun _ => reply) (formData (ui p))) with
     | Fulfilled v => result (ui r) = v
     | Rejected _ => result (ui r) = Null
     end.
Proof.
  cbv zeta. intros Hd Hv.
  pose proof (page_inv_run JSON_stringify events start page_inv_start) as Hinv.
  set (p := run JSON_stringify events start) in *.
  change (run JSON_stringify (Click :: edits changes) p)
    with (run JSON_stringify (edits changes) (dispatch JSON_stringify Click p)).
  set (c := dispatch JSON_stringify Click p).
  assert (Hc : c = mkPage (setLoading true
                 (setValidationErrors (fun _ => errorMap (formData (ui p)))
                    (setResult Null (setError None (ui p)))))
                 [(formData (ui p),
                   fun outcome s =>
                     setLoading false
                       match outcome with
                       | Fulfilled prediction => setResult prediction s
                       | Rejected _ =>
                           setError (Some "Failed to generate prediction. Please try again.") s
                       end)]
                 (console p)).
  { unfold c, dispatch. rewrite Hd, handleSubmit_eq. cbv zeta.
    rewrite validateInputs_eq in Hv. simpl in Hv. rewrite Hv.
    destruct Hinv as [Hp Hl _|data k Hp Hk Hl _ _]; [| unfold submit_disabled in Hd; congruence].
    by rewrite Hp. }
  destruct (run_edits JSON_stringify changes c) as [Hpq Hfq].
  pose proof (page_inv_run JSON_stringify (edits changes) c
                (page_inv_dispatch JSON_stringify Click p Hinv)) as Hq.
  rewrite Hc in Hpq, Hfq. simpl in Hpq, Hfq. rewrite <- Hc in *.
  split; [rewrite Hpq; eauto |].
  rewrite (dispatch_Settle _ _ _ _ _ Hpq) by (by intros ? ?). simpl.
  split.
  - rewrite <- Hfq. by case_match.
  - destruct Hq as [Hp' _ _|data k Hp' Hk Hl Hr He]; [congruence |].
    case_match; simpl; [done | exact Hr].
Qed.

Lemma request_carries_form_at_click_example :
  let js : Obj -> string := fun _ => "" in
  let p := run js [Change age (Number 45); Change avgGlucoseLevel (Number 105.5);
                   Change bmi (Number 30)] start in
  let q := run js (Click :: edits [(age, Number 200); (gender, Str "Female")]) p in
  let r := dispatch js (Settle 0 (Fulfilled {| text := Some "42" |})) q in
  (exists k, pending q = [(formData (ui p), k)])
  /\ formData (ui r) =
     fold_left (fun fd '(f, v) => <[f := v]> fd)
       [(age, Number 200); (gender, Str "Female")] (formData (ui p))
  /\ match snd (predictStrokeRisk js (fun _ => Fulfilled {| text := Some "42" |})
                  (formData (ui p))) with
     | Fulfilled v => result (ui r) = v
     | Rejected _ => result (ui r) = Null
     end.
Proof.
  cbv zeta.
  apply (request_carries_form_at_click (fun _ => "")
           [Change age (Number 45); Change avgGlucoseLevel (Number 105.5);
            Change bmi (Number 30)]
           [(age, Number 200); (gender, Str "Female")]
           (Fulfilled {| text := Some "42" |}));
    vm_compute; reflexivity.
Defined.

(** ** What is on screen *)

(** X10. On every reachable page: while the button reads Processing...
    there is no error banner, no placeholder and no result card; the error
    banner and the result card are never shown together; and when the button
    reads Predict Stroke Risk, the placeholder is shown exactly when the
    result card is not. *)
Theorem screen_consistent (ToNumber : Value -> float) (JSON_stringify : Obj -> string)
    (events : list Event) :
  let scr := render ToNumber (ui (run JSON_stringify events start)) in
  (submitLabel scr = "Processing..." ->
   errorBanner scr = None /\ placeholder scr = false /\ resultPanel scr = None)
  /\ ~ (errorBanner scr <> None /\ resultPanel scr <> None)
  /\ (submitLabel scr = "Predict Stroke Risk" ->
      (placeholder scr = true <-> resultPanel scr = None)).
Proof.
  cbv zeta. pose proof (page_inv_run JSON_stringify events start page_inv_start) as Hinv.
  unfold render. simpl.
  destruct Hinv as [_ Hl Hre|data k _ _ Hl Hr He]; rewrite Hl.
  - split; [discriminate |]. split.
    + destruct Hre as [-> | ->]; simpl; intros [? ?]; congruence.
    + intros _. destruct (truthy (result (ui (run JSON_stringify events start))));
        simpl; split; congruence.
  - rewrite Hr, He. simpl. split; [auto |]. split; [intros [? ?]; congruence | discriminate].
Qed.

(** X11. A reply whose text parses to a falsy value (0, false, null, the
    empty string) is stored as the result without any error or log entry, and
    the page then shows the No Prediction Yet placeholder: no card and no
    banner. *)
Theorem falsy_reply_shows_placeholder (ToNumber : Value -> float) (JSON_stringify : Obj -> string)
    (events : list Event) (t : string) (v : Value) :
  let p := run JSON_stringify events start in
  pending p <> [] ->
  t <> "" -> JSON.parse t = inl v -> truthy v = false ->
  let p' := dispatch JSON_stringify (Settle 0 (Fulfilled {| text := Some t |})) p in
  result (ui p') = v
  /\ console p' = console p
  /\ render ToNumber (ui p') =
     {| submitLabel := "Predict Stroke Risk"; errorBanner := None;
        placeholder := true; resultPanel := None |}.
Proof.
  cbv zeta. pose proof (page_inv_run JSON_stringify events start page_inv_start) as Hinv.
  intros Hne Ht Hparse Hv.
  destruct Hinv as [Hp _ _|data k Hp Hk Hl Hr He]; [congruence |].
  rewrite (dispatch_Settle _ _ _ _ _ Hp Hk).
  rewrite (predictStrokeRisk_returns JSON_stringify _ data t v) by done.
  simpl. rewrite app_nil_r. repeat split.
  unfold render. simpl. by rewrite Hv, He.
Qed.

Lemma falsy_reply_shows_placeholder_example :
  let js : Obj -> string := fun _ => "" in
  let p := run js [Change age (Number 45); Change avgGlucoseLevel (Number 105.5);
                   Change bmi (Number 30); Click] start in
  let p' := dispatch js (Settle 0 (Fulfilled {| text := Some "0" |})) p in
  result (ui p') = Number 0
  /\ console p' = console p
  /\ render ToNumber_plain (ui p') =
     {| submitLabel := "Predict Stroke Risk"; errorBanner := None;
        placeholder := true; resultPanel := None |}.
Proof.
  cbv zeta. apply (falsy_reply_shows_placeholder ToNumber_plain (fun _ => "") _ "0" (Number 0)).
  - vm_compute. discriminate.
  - discriminate.
  - vm_compute. reflexivity.
  - vm_compute. reflexivity.
Defined.

(** X13. A reply whose text parses to a truthy value that has none of the
    three keys strokePrediction, probability and riskLevel (a number, a
    string, true, an array, an object with other keys only) is rendered as a
    result card with every colour at its fallback: green header reading
    Stroke: NO, green bar, green risk level. *)
Theorem keyless_reply_shows_reassuring_card (ToNumber : Value -> float) (JSON_stringify : Obj -> string)
    (events : list Event) (t : string) (v : Value) :
  let p := run JSON_stringify events start in
  PrimFloat.is_nan (ToNumber Undefined) = true ->
  pending p <> [] ->
  t <> "" -> JSON.parse t = inl v -> truthy v = true ->
  member v "strokePrediction" = Undefined ->
  member v "probability" = Undefined ->
  member v "riskLevel" = Undefined ->
  let p' := dispatch JSON_stringify (Settle 0 (Fulfilled {| text := Some t |})) p in
  render_completes (ui p') = true
  /\ render ToNumber (ui p') =
     {| submitLabel := "Predict Stroke Risk"; errorBanner := None;
        placeholder := false; resultPanel := Some reassuring |}.
Proof.
  cbv zeta. pose proof (page_inv_run JSON_stringify events start page_inv_start) as Hinv.
  intros HT Hne Ht Hparse Hv Hs Hp' Hr'.
  destruct Hinv as [Hp _ _|data k Hp Hk Hl Hr He]; [congruence |].
  rewrite (dispatch_Settle _ _ _ _ _ Hp Hk).
  rewrite (predictStrokeRisk_returns JSON_stringify _ data t v) by done.
  unfold render_completes, render, panel, exceeds. simpl.
  rewrite Hv, He, Hs, Hp', Hr'. simpl.
  rewrite !(ltb_nan_r _ _ HT). split; reflexivity.
Qed.

Lemma keyless_reply_shows_reassuring_card_example :
  let js : Obj -> string := fun _ => "" in
  let t := "{" ++ quoted "error" ++ ":" ++ quoted "quota exceeded" ++ "}" in
  let p := run js [Change age (Number 45); Change avgGlucoseLevel (Number 105.5);
                   Change bmi (Number 30); Click] start in
  let p' := dispatch js (Settle 0 (Fulfilled {| text := Some t |})) p in
  JSON.parse t = inl (Object [("error", Str "quota exceeded")])
  /\ render_completes (ui p') = true
  /\ render ToNumber_plain (ui p') =
     {| submitLabel := "Predict Stroke Risk"; errorBanner := None;
        placeholder := false; resultPanel := Some reassuring |}.
Proof.
  cbv zeta. split; [vm_compute; reflexivity |].
  apply (keyless_reply_shows_reassuring_card ToNumber_plain (fun _ => "") _
           ("{" ++ quoted "error" ++ ":" ++ quoted "quota exceeded" ++ "}")
           (Object [("error", Str "quota exceeded")])).
  - vm_compute. reflexivity.
  - vm_compute. discriminate.
  - vm_compute. discriminate.
  - vm_compute. reflexivity.
  - vm_compute. reflexivity.
  - vm_compute. reflexivity.
  - vm_compute. reflexivity.
  - vm_compute. reflexivity.
Defined.

(** A value of the declared shape is an object with the three keys, each of
    its declared type. *)
Lemma conforms_schema v :
  conforms schema v = true ->
  exists props b x r,
    v = Object props
    /\ JSON.obj_get props "strokePrediction" = Some (Bool b)
    /\ JSON.obj_get props "probability" = Some (Number x)
    /\ JSON.obj_get props "riskLevel" = Some (Str r)
    /\ (r = "Low Risk" \/ r = "Moderate Risk" \/ r = "High Risk").
Proof.
  destruct v as [| | | | | |props]; try discriminate.
  unfold schema. cbn [conforms forallb].
  destruct (JSON.obj_get props "strokePrediction") as [[| |b| | | |]|] eqn:Hb;
    try discriminate;
  destruct (JSON.obj_get props "probability") as [[| | |p| | |]|] eqn:Hp;
    try discriminate;
  destruct (JSON.obj_get props "riskLevel") as [[| | | |r| |]|] eqn:Hr;
    try discriminate.
  cbn [conforms existsb andb orb]. rewrite !andb_true_r, orb_false_r.
  intros H. exists props, b, p, r. repeat split; try assumption.
  apply orb_true_iff in H as [H|H]; [left | apply orb_true_iff in H as [H|H]; right; [left | right]];
    by apply String.eqb_eq in H.
Qed.

(** X12. For a result of the declared shape the card is a function of its
    three fields: the header is red and reads Stroke: YES exactly when
    strokePrediction is true; the bar is red when the probability is above 50,
    yellow when it is above 20 and not above 50, green otherwise (also for
    NaN, and with no clamping to 0..100); the risk level is red for High Risk,
    yellow for Moderate Risk and green for Low Risk. *)
Theorem panel_of_conforming_result (ToNumber : Value -> float) (result : Value) :
  (forall x, ToNumber (Number x) = x) ->
  conforms schema result = true ->
  exists b x r,
    member result "strokePrediction" = Bool b
    /\ member result "probability" = Number x
    /\ member result "riskLevel" = Str r
    /\ (r = "Low Risk" \/ r = "Moderate Risk" \/ r = "High Risk")
    /\ truthy result = true
    /\ panel ToNumber result =
       {| headerClass := if b then "bg-red-500" else "bg-green-500";
          headline := if b then "Stroke: YES" else "Stroke: NO";
          barClass :=
            if PrimFloat.is_nan x then "bg-green-500"
            else if negb (PrimFloat.leb x 50) then "bg-red-500"
            else if negb (PrimFloat.leb x 20) then "bg-yellow-500"
            else "bg-green-500";
          riskClass :=
            if String.eqb r "High Risk" then "text-red-600"
            else if String.eqb r "Moderate Risk" then "text-yellow-600"
            else "text-green-600" |}.
Proof.
  intros HT Hc. destruct (conforms_schema _ Hc) as (props & b & x & r & -> & Hb & Hx & Hr & Hl).
  exists b, x, r. unfold member. rewrite Hb, Hx, Hr. simpl default.
  do 5 (split; [done |]).
  unfold panel, exceeds, member. rewrite Hb, Hx, Hr. simpl default.
  rewrite HT. cbn [truthy strict_eq]. f_equal.
  destruct (PrimFloat.is_nan x) eqn:En.
  - by rewrite !(ltb_nan_r _ _ En).
  - by rewrite !(ltb_negb_leb _ x) by done.
Qed.

Lemma panel_of_conforming_result_example :
  exists b x r,
    member (reply_value 72) "strokePrediction" = Bool b
    /\ member (reply_value 72) "probability" = Number x
    /\ member (reply_value 72) "riskLevel" = Str r
    /\ (r = "Low Risk" \/ r = "Moderate Risk" \/ r = "High Risk")
    /\ truthy (reply_value 72) = true
    /\ panel ToNumber_plain (reply_value 72) =
       {| headerClass := if b then "bg-red-500" else "bg-green-500";
          headline := if b then "Stroke: YES" else "Stroke: NO";
          barClass :=
            if PrimFloat.is_nan x then "bg-green-500"
            else if negb (PrimFloat.leb x 50) then "bg-red-500"
            else if negb (PrimFloat.leb x 20) then "bg-yellow-500"
            else "bg-green-500";
          riskClass :=
            if String.eqb r "High Risk" then "text-red-600"
            else if String.eqb r "Moderate Risk" then "text-yellow-600"
            else "text-green-600" |}.
Proof. apply (panel_of_conforming_result ToNumber_plain (reply_value 72)); reflexivity. Defined.
